(** * Checkpoint persistence of optimizer and lr-scheduler state

    A shallow embedding of [nanotron/serialize/optimizer.py]: the shard
    naming scheme ([optimizer_filename], [lr_scheduler_filename]) and the
    four persistence entry points ([save_optimizer], [save_lr_scheduler],
    [load_optimizer], [load_lr_scheduler]), run against a small model of the
    filesystem and of the objects they touch. *)

From Stdlib Require Import Ascii String ZArith.
From stdpp Require Import base gmap strings list pretty.

Local Open Scope Z_scope.
Local Open Scope string_scope.
Local Open Scope list_scope.

(** ** Collaborators of the module *)

(** Modelled from the spec: [nanotron.distributed] is not among the
    sources.  [ParallelMode] lists the axes of the coordinate resolver. *)
Inductive ParallelMode := GLOBAL | DATA | PIPELINE | TENSOR.

(** Modelled from the spec: [ParallelContext] is the process's coordinate,
    a rank and a group size on each axis, fixed at group formation and only
    read afterwards.  Python integers are unbounded, hence [Z]. *)
Record ParallelContext := mkContext {
  pp_rank : Z;  pp_world_size : Z;
  dp_rank : Z;  dp_world_size : Z;
  tp_rank : Z;  tp_world_size : Z;
  global_rank : Z;  global_world_size : Z
}.

Definition get_local_rank (pc : ParallelContext) (mode : ParallelMode) : Z :=
  match mode with
  | GLOBAL => global_rank pc
  | DATA => dp_rank pc
  | PIPELINE => pp_rank pc
  | TENSOR => tp_rank pc
  end.

Definition get_world_size (pc : ParallelContext) (mode : ParallelMode) : Z :=
  match mode with
  | GLOBAL => global_world_size pc
  | DATA => dp_world_size pc
  | PIPELINE => pp_world_size pc
  | TENSOR => tp_world_size pc
  end.

Definition get_global_rank (pc : ParallelContext) : Z := global_rank pc.

(** What process-group formation guarantees: on every axis the rank is a
    natural number below the group size. *)
Definition rank_in_group (pc : ParallelContext) (mode : ParallelMode) : Prop :=
  0 <= get_local_rank pc mode < get_world_size pc mode.

Definition wf_context (pc : ParallelContext) : Prop :=
  rank_in_group pc GLOBAL /\ rank_in_group pc DATA /\
  rank_in_group pc PIPELINE /\ rank_in_group pc TENSOR.

(** Modelled from the spec: [nanotron.serialize.utils.ObjectType] is not
    among the sources; its two values are read off the filesystem layout of
    the specification ([optimizer_..., lr_scheduler.pt]). *)
Inductive ObjectType := OPTIMIZER | LR_SCHEDULER.

Definition value (k : ObjectType) : string :=
  match k with
  | OPTIMIZER => "optimizer"
  | LR_SCHEDULER => "lr_scheduler"
  end.

(** ** Shard naming *)

(** A replacement field [{n}] of an f-string on an integer is [str(n)]:
    decimal digits, with a leading minus sign on negative numbers. *)
Definition fmt (n : Z) : string := pretty n.

Definition optimizer_filename (parallel_context : ParallelContext) (is_zero : bool)
  : string :=
  let dp_rank := get_local_rank parallel_context DATA in
  let pp_rank := get_local_rank parallel_context PIPELINE in
  let dp_world_size := get_world_size parallel_context DATA in
  let pp_world_size := get_world_size parallel_context PIPELINE in
  if is_zero then
    let tp_rank := get_local_rank parallel_context TENSOR in
    let tp_world_size := get_world_size parallel_context TENSOR in
    value OPTIMIZER +:+ "_pp-" +:+ fmt pp_rank +:+ "-of-" +:+ fmt pp_world_size
      +:+ "_dp-" +:+ fmt dp_rank +:+ "-of-" +:+ fmt dp_world_size
      +:+ "_tp-" +:+ fmt tp_rank +:+ "-of-" +:+ fmt tp_world_size +:+ ".pt"
  else
    value OPTIMIZER +:+ "_pp-" +:+ fmt pp_rank +:+ "-of-" +:+ fmt pp_world_size
      +:+ "_tp-" +:+ fmt dp_rank +:+ "-of-" +:+ fmt dp_world_size +:+ ".pt".

(** The lr_scheduler is the same for all processes. *)
Definition lr_scheduler_filename : string := value LR_SCHEDULER +:+ ".pt".

(** Decimal digits, used to delimit the integers inside a shard name. *)

Definition is_digit (c : ascii) : bool :=
  bool_decide (c ∈ ["0"; "1"; "2"; "3"; "4"; "5"; "6"; "7"; "8"; "9"]%char).

Fixpoint all_digits (s : string) : bool :=
  match s with
  | "" => true
  | String c r => is_digit c && all_digits r
  end.

Definition starts_with_digit (s : string) : bool :=
  match s with
  | "" => false
  | String c _ => is_digit c
  end.

(** ** The world the persistence functions run in *)

(** [pathlib.Path]: the sequence of components; [p </> s] is [p / s]. *)
Abbreviation Path := (list string).

Definition path_div (p : Path) (name : string) : Path := p ++ [name].
Infix "</>" := path_div (at level 40, left associativity).

(** [Path.parent] *)
Definition parent (p : Path) : Path := removelast p.

(** The payload of [json.dump]: a flat object with string values. *)
Abbreviation Json := (list (string * string)).

(** The subset of Python's exceptions these calls can meet. *)
Inductive Exception :=
  | FileNotFoundError
  | FileExistsError
  | NotADirectoryError
  | IsADirectoryError
  | UnpicklingError.

Inductive Result (A : Type) :=
  | Ok (a : A)
  | Raise (e : Exception).
Arguments Ok {A} a.
Arguments Raise {A} e.

(** Modelled from the spec: [nanotron.core.optim] is not among the sources.
    An optimizer is a chain of wrappers; [inherit_from] tells whether a
    class occurs in the chain (the capability query of the specification),
    [class_name] is [optimizer.__class__.__name__]. *)
Inductive OptimClass := BaseOptimizer | NamedOptimizer | ZeroDistributedOptimizer.

Global Instance OptimClass_eq_dec : EqDecision OptimClass.
Proof. solve_decision. Defined.

Section Persistence.

(** The persisted state mapping is opaque to this module. *)
Context {StateDict : Type}.

Record Optimizer := mkOptimizer {
  class_name : string;
  lineage : list OptimClass;
  optimizer_state : StateDict
}.

Definition inherit_from (optimizer : Optimizer) (cls : OptimClass) : bool :=
  bool_decide (cls ∈ lineage optimizer).

Definition state_dict (optimizer : Optimizer) : StateDict :=
  optimizer_state optimizer.

Record LRScheduler := mkLRScheduler { scheduler_state : StateDict }.

(** What a path of the filesystem holds. *)
Inductive Node :=
  | Directory
  | JsonFile (j : Json)
  | PickleFile (s : StateDict).

(** The calls that leave the module, in the order they are made. *)
Inductive Event :=
  | EMkdir (p : Path)
  | EJsonDump (p : Path) (j : Json)
  | ETorchSave (p : Path) (s : StateDict)
  | ETorchLoad (p : Path) (map_location : option string)
  | EOptimizerLoadStateDict (s : StateDict)
  | ESchedulerLoadStateDict (s : StateDict).

(** One process: the filesystem it sees, the two objects whose references
    the Python functions receive as [optimizer] and [lr_scheduler], and the
    log of outgoing calls (oldest first). *)
Record World := mkWorld {
  w_fs : gmap Path Node;
  w_optimizer : Optimizer;
  w_lr_scheduler : LRScheduler;
  w_log : list Event
}.

Definition set_fs (fs : gmap Path Node) (w : World) : World :=
  mkWorld fs (w_optimizer w) (w_lr_scheduler w) (w_log w).

Definition log_event (e : Event) (w : World) : World :=
  mkWorld (w_fs w) (w_optimizer w) (w_lr_scheduler w) (w_log w ++ [e]).

(** State and exceptions: a computation returns or raises, and leaves a
    world behind in both cases. *)
Definition IO (A : Type) : Type := World -> Result A * World.

Global Instance IO_ret : MRet IO := fun A a w => (Ok a, w).

Global Instance IO_bind : MBind IO := fun A B f m w =>
  match m w with
  | (Ok a, w') => f a w'
  | (Raise e, w') => (Raise e, w')
  end.

Definition raise {A} (e : Exception) : IO A := fun w => (Raise e, w).
Definition get_world : IO World := fun w => (Ok w, w).
Definition put_world (w : World) : IO unit := fun _ => (Ok tt, w).
Definition emit (e : Event) : IO unit := fun w => (Ok tt, log_event e w).

(** *** Filesystem primitives *)

(** [os.mkdir] along a path, parents first; [walked] is the prefix already
    walked.  An existing directory is accepted ([exist_ok=True]), a missing
    one is created ([parents=True]), a file in the way is an error.  The
    directories created before an error stay. *)
Fixpoint make_dirs (walked : Path) (todo : list string) (fs : gmap Path Node)
  : Result unit * gmap Path Node :=
  match todo with
  | [] => (Ok tt, fs)
  | name :: rest =>
      let q := walked </> name in
      match fs !! q with
      | None => make_dirs q rest (<[q := Directory]> fs)
      | Some Directory => make_dirs q rest fs
      | Some _ =>
          (Raise (match rest with [] => FileExistsError | _ => NotADirectoryError end), fs)
      end
  end.

(** [p.mkdir(exist_ok=True, parents=True)] *)
Definition mkdir (p : Path) : IO unit :=
  emit (EMkdir p) ;;
  w ← get_world;
  match make_dirs [] p (w_fs w) with
  | (Ok _, fs) => put_world (set_fs fs w)
  | (Raise e, fs) => put_world (set_fs fs w) ;; raise e
  end.

Definition is_directory (fs : gmap Path Node) (p : Path) : bool :=
  match p with
  | [] => true
  | _ => match fs !! p with Some Directory => true | _ => false end
  end.

(** Opening [p] for writing and replacing its content by [n]. *)
Definition write_file (p : Path) (n : Node) : IO unit :=
  w ← get_world;
  if is_directory (w_fs w) p then raise IsADirectoryError
  else if is_directory (w_fs w) (parent p)
       then put_world (set_fs (<[p := n]> (w_fs w)) w)
       else raise FileNotFoundError.

(** [with open(p, "w") as fo: json.dump(j, fo)] *)
Definition json_dump (j : Json) (p : Path) : IO unit :=
  emit (EJsonDump p j) ;; write_file p (JsonFile j).

(** [torch.save(obj, p)] *)
Definition torch_save (obj : StateDict) (p : Path) : IO unit :=
  emit (ETorchSave p obj) ;; write_file p (PickleFile obj).

(** What [open] answers on a path that is not there.  The walk from the top
    stops at the first component before the last that is not a directory:
    [NotADirectoryError] when a file stands there, [FileNotFoundError] when
    nothing does, and [FileNotFoundError] when only the last component is
    missing. *)
Fixpoint open_error (fs : gmap Path Node) (walked : Path) (todo : list string)
  : Exception :=
  match todo with
  | [] => FileNotFoundError
  | name :: rest =>
      match rest with
      | [] => FileNotFoundError
      | _ =>
          match fs !! (walked </> name) with
          | Some Directory => open_error fs (walked </> name) rest
          | None => FileNotFoundError
          | Some _ => NotADirectoryError
          end
      end
  end.

(** [torch.load(p, map_location=...)]: the mapping stored at [p]; where its
    tensors are placed is recorded in the log. *)
Definition torch_load (p : Path) (map_location : option string) : IO StateDict :=
  emit (ETorchLoad p map_location) ;;
  w ← get_world;
  match w_fs w !! p with
  | None => raise (open_error (w_fs w) [] p)
  | Some Directory => raise IsADirectoryError
  | Some (JsonFile _) => raise UnpicklingError
  | Some (PickleFile s) => mret s
  end.

(** *** Methods of the two objects *)

Definition get_optimizer : IO Optimizer := fun w => (Ok (w_optimizer w), w).
Definition get_lr_scheduler : IO LRScheduler := fun w => (Ok (w_lr_scheduler w), w).

(** [optimizer.load_state_dict(s)] *)
Definition optimizer_load_state_dict (s : StateDict) : IO unit :=
  emit (EOptimizerLoadStateDict s) ;;
  w ← get_world;
  let o := w_optimizer w in
  put_world (mkWorld (w_fs w) (mkOptimizer (class_name o) (lineage o) s)
                     (w_lr_scheduler w) (w_log w)).

(** [lr_scheduler.load_state_dict(s)] *)
Definition scheduler_load_state_dict (s : StateDict) : IO unit :=
  emit (ESchedulerLoadStateDict s) ;;
  w ← get_world;
  put_world (mkWorld (w_fs w) (w_optimizer w) (mkLRScheduler s) (w_log w)).

(** ** The persistence functions *)

(** Saves optimizer states
    - If Zero-0 is used, optimizer states are replicated across all DPs.
      Only DP-0 saves the states
    - If Zero-1 is used, optimizer states are sharded across all DPs.
      Each DP saves its own states *)
Definition save_optimizer (parallel_context : ParallelContext) (root_folder : Path)
  : IO unit :=
  optimizer ← get_optimizer;
  let root_folder := root_folder </> "optimizer" in
  mkdir root_folder ;;
  (if bool_decide (get_world_size parallel_context GLOBAL = 0)
   then json_dump [("type", class_name optimizer)]
                  (root_folder </> "optimizer_config.json")
   else mret tt) ;;
  let dp_rank := get_local_rank parallel_context DATA in
  if negb (inherit_from optimizer ZeroDistributedOptimizer) && bool_decide (dp_rank > 0)
  then mret tt
  else
    torch_save (state_dict optimizer)
      (root_folder
         </> optimizer_filename parallel_context
               (inherit_from optimizer ZeroDistributedOptimizer)).

(** Saves lr scheduler states *)
Definition save_lr_scheduler (parallel_context : ParallelContext) (root_folder : Path)
  : IO unit :=
  lr_scheduler ← get_lr_scheduler;
  if bool_decide (get_global_rank parallel_context > 0)
  then mret tt
  else
    let root_folder := root_folder </> "lr_scheduler" in
    mkdir root_folder ;;
    torch_save (scheduler_state lr_scheduler) (root_folder </> lr_scheduler_filename).

Definition load_optimizer (parallel_context : ParallelContext) (root_folder : Path)
    (map_location : option string) : IO unit :=
  optimizer ← get_optimizer;
  let root_folder := root_folder </> "optimizer" in
  let map_location :=
    if negb (inherit_from optimizer ZeroDistributedOptimizer)
    then Some "cpu" else map_location in
  state_dict ← torch_load
    (root_folder
       </> optimizer_filename parallel_context
             (inherit_from optimizer ZeroDistributedOptimizer))
    map_location;
  optimizer_load_state_dict state_dict.

Definition load_lr_scheduler (root_folder : Path) : IO unit :=
  let root_folder := root_folder </> "lr_scheduler" in
  state_dict ← torch_load (root_folder </> lr_scheduler_filename) None;
  scheduler_load_state_dict state_dict.

End Persistence.

Arguments Optimizer : clear implicits.
Arguments LRScheduler : clear implicits.
Arguments Node : clear implicits.
Arguments Event : clear implicits.
Arguments World : clear implicits.
Arguments IO : clear implicits.

(** ** Vocabulary of the specification *)

(** The ownership predicate, in the words of the specification:
    [owns_write = (mode == SHARDED) OR (data_rank == 0)]. *)
Definition owns_write (sharded : bool) (pc : ParallelContext) : bool :=
  sharded || bool_decide (dp_rank pc = 0).

(** The [torch.save], [torch.load] and [json.dump] calls of a log. *)
Definition saves_of {StateDict} (log : list (Event StateDict))
  : list (Path * StateDict) :=
  omap (fun e => match e with ETorchSave p s => Some (p, s) | _ => None end) log.

Definition loads_of {StateDict} (log : list (Event StateDict))
  : list (Path * option string) :=
  omap (fun e => match e with ETorchLoad p l => Some (p, l) | _ => None end) log.

Definition dumps_of {StateDict} (log : list (Event StateDict))
  : list (Path * Json) :=
  omap (fun e => match e with EJsonDump p j => Some (p, j) | _ => None end) log.

(** [name] is what some process of a run with the given group sizes calls
    its shard. *)
Definition shard_of_run (sharded : bool) (ppw dpw tpw : Z) (name : string) : Prop :=
  exists pc, pp_world_size pc = ppw /\ dp_world_size pc = dpw /\
             tp_world_size pc = tpw /\ name = optimizer_filename pc sharded.

(** The optimizer folder under [root] holds nothing but the manifest and
    shards of one run. *)
Definition checkpoint_of_run {StateDict} (sharded : bool) (ppw dpw tpw : Z)
    (root : Path) (fs : gmap Path (Node StateDict)) : Prop :=
  forall name, is_Some (fs !! (root </> "optimizer" </> name)) ->
    name = "optimizer_config.json" \/ shard_of_run sharded ppw dpw tpw name.

(** ** Sample processes *)

(** Positions are listed as pp, dp, tp, global: rank then group size. *)
Definition solo : ParallelContext := mkContext 0 1 0 1 0 1 0 1.
Definition tensor_peer_0 : ParallelContext := mkContext 0 1 0 1 0 2 0 2.
Definition tensor_peer_1 : ParallelContext := mkContext 0 1 0 1 1 2 1 2.
Definition data_peer_0 : ParallelContext := mkContext 0 1 0 2 0 1 0 2.
Definition data_peer_1 : ParallelContext := mkContext 0 1 1 2 0 1 1 2.

Definition adam (state : nat) : Optimizer nat :=
  mkOptimizer "NamedOptimizer" [NamedOptimizer; BaseOptimizer] state.
Definition zero_adam (state : nat) : Optimizer nat :=
  mkOptimizer "ZeroDistributedOptimizer"
              [ZeroDistributedOptimizer; NamedOptimizer; BaseOptimizer] state.

(** A process that sees filesystem [fs] and has made no call yet. *)
Definition process (fs : gmap Path (Node nat)) (o : Optimizer nat) (sched : nat)
  : World nat :=
  mkWorld fs o (mkLRScheduler sched) [].

Definition ckpt : Path := ["ckpt"].

(** The filesystem once [ckpt/optimizer], resp. [ckpt/lr_scheduler], has
    been created in an empty one. *)
Definition fresh_optimizer_dirs : gmap Path (Node nat) :=
  <[ckpt </> "optimizer" := Directory]> (<[ckpt := Directory]> ∅).
Definition fresh_scheduler_dirs : gmap Path (Node nat) :=
  <[ckpt </> "lr_scheduler" := Directory]> (<[ckpt := Directory]> ∅).

(** ** Further vocabulary *)

(** [s] can stand as one component of a path: it holds no separator. *)
Fixpoint no_slash (s : string) : bool :=
  match s with
  | "" => true
  | String c r => negb (bool_decide (c = "/"%char)) && no_slash r
  end.

(** The part of the world a filesystem call cannot reach: the two objects
    are in [w'] what they were in [w]. *)
Definition same_objects {StateDict} (w w' : World StateDict) : Prop :=
  w_optimizer w' = w_optimizer w /\ w_lr_scheduler w' = w_lr_scheduler w.

(** The optimizer folder under [root] holds nothing but the manifest and
    REPLICATED shards named by processes of data rank 0. *)
Definition checkpoint_of_owners {StateDict} (root : Path)
    (fs : gmap Path (Node StateDict)) : Prop :=
  forall name, is_Some (fs !! (root </> "optimizer" </> name)) ->
    name = "optimizer_config.json"
    \/ exists pc, dp_rank pc = 0 /\ name = optimizer_filename pc false.

(** ** Bookkeeping of the sampler tests ([tests/test_x.py]) *)

(** [sum(...)] over integers, from the left and starting at 0. *)
Definition py_sum (l : list Z) : Z := foldl Z.add 0 l.

(** The tests read a dataset through [len(ds)] only, so a dataset is its
    length here. [start_indices[i]] and [end_indices[i]] delimit the global
    indices of domain [i]. *)
Definition start_indices (datasets : list nat) : list Z :=
  (fun i => py_sum (Z.of_nat <$> take i datasets)) <$> seq 0 (length datasets).

Definition end_indices (datasets : list nat) : list Z :=
  (fun i => py_sum (Z.of_nat <$> take (i + 1) datasets)) <$> seq 0 (length datasets).

(** The generator [(1 for idx in idxs if idx >= start_indices[domain_idx]
    and idx < end_indices[domain_idx])], drawn to its end: the two lists
    are indexed anew for every element of the batch, the second one only
    when the first comparison holds, so an empty batch indexes nothing.
    [None] is Python's [IndexError]. *)
Fixpoint ones_of_domain (starts stops : list Z) (domain_idx : nat) (idxs : list Z)
  : option (list Z) :=
  match idxs with
  | [] => Some []
  | idx :: rest =>
      start ← starts !! domain_idx;
      inside ← (if bool_decide (idx >= start)
                then stop ← stops !! domain_idx; Some (bool_decide (idx < stop))
                else Some false);
      more ← ones_of_domain starts stops domain_idx rest;
      Some (if inside : bool then 1 :: more else more)
  end.

(** [num_samples = sum(1 for idx in idxs if ...)] *)
Definition num_samples (starts stops : list Z) (domain_idx : nat) (idxs : list Z)
  : option Z :=
  py_sum <$> ones_of_domain starts stops domain_idx idxs.

(** One turn of [for domain_idx in range(len(domain_weights))]: the count
    of the domain is taken, then added in place to
    [num_samples_per_domain[domain_idx]]; [None] is Python's [IndexError]. *)
Definition count_domain (datasets : list nat) (idxs : list Z)
    (num_samples_per_domain : list Z) (domain_idx : nat) : option (list Z) :=
  n ← num_samples (start_indices datasets) (end_indices datasets) domain_idx idxs;
  old ← num_samples_per_domain !! domain_idx;
  Some (<[domain_idx := old + n]> num_samples_per_domain).

Fixpoint count_domains (datasets : list nat) (idxs : list Z) (domains : list nat)
    (num_samples_per_domain : list Z) : option (list Z) :=
  match domains with
  | [] => Some num_samples_per_domain
  | domain_idx :: rest =>
      counted ← count_domain datasets idxs num_samples_per_domain domain_idx;
      count_domains datasets idxs rest counted
  end.

(** The whole loop for one batch, [n_domains] being [len(domain_weights)]. *)
Definition count_batch (datasets : list nat) (n_domains : nat) (idxs : list Z)
    (num_samples_per_domain : list Z) : option (list Z) :=
  count_domains datasets idxs (seq 0 n_domains) num_samples_per_domain.

(** The loop of [_test_dist_doremi_sampler_not_repeating_samples] over the
    batches the sampler yields, from a state [(microbatch_idx,
    yielded_idxs)]: the check that [set(idxs).intersection(yielded_idxs)] is
    empty, then [microbatch_idx += 1] and [yielded_idxs.extend(idxs)].
    [None] is the [AssertionError] of the check. *)
Fixpoint not_repeating_loop (batches : list (list Z)) (microbatch_idx : Z)
    (yielded_idxs : list Z) : option (Z * list Z) :=
  match batches with
  | [] => Some (microbatch_idx, yielded_idxs)
  | idxs :: rest =>
      if forallb (fun idx => negb (bool_decide (idx ∈ yielded_idxs))) idxs
      then not_repeating_loop rest (microbatch_idx + 1) (yielded_idxs ++ idxs)
      else None
  end.

(** No index of the batch [later] occurs in the batch [earlier]. *)
Definition no_index_again (earlier later : list Z) : Prop :=
  forall idx, idx ∈ later -> idx ∉ earlier.

(** ** Properties of the naming scheme *)

Example scenario_A_first :
  optimizer_filename (mkContext 0 2 0 2 0 1 0 4) true
  = "optimizer_pp-0-of-2_dp-0-of-2_tp-0-of-1.pt".
Proof. reflexivity. Qed.

Example scenario_A_last :
  optimizer_filename (mkContext 1 2 1 2 0 1 3 4) true
  = "optimizer_pp-1-of-2_dp-1-of-2_tp-0-of-1.pt".
Proof. reflexivity. Qed.

Example scenario_B_stage1 :
  optimizer_filename (mkContext 1 2 0 2 0 1 2 4) false
  = "optimizer_pp-1-of-2_tp-0-of-2.pt".
Proof. reflexivity. Qed.

(** *** Reading an integer back from the front of a string *)

#[local] Arguments String.append !_ _ / : simpl nomatch.

Lemma all_digits_app (s t : string) :
  all_digits (s +:+ t) = all_digits s && all_digits t.
Proof.
  induction s as [|c s IH]; simpl; [done|].
  rewrite IH. by destruct (is_digit c).
Qed.

Lemma append_assoc (s t u : string) : (s +:+ t) +:+ u = s +:+ t +:+ u.
Proof.
  induction s as [|c s IH]; [done|].
  change (String c ((s +:+ t) +:+ u) = String c (s +:+ t +:+ u)). by f_equal.
Qed.

Lemma pretty_N_char_digit (x : N) : is_digit (pretty_N_char x) = true.
Proof. unfold pretty_N_char. by repeat case_match. Qed.

(** A run of digits followed by something that is not a digit splits in
    one way only. *)
Lemma digits_app_inj (d1 d2 r1 r2 : string) :
  all_digits d1 = true -> all_digits d2 = true ->
  starts_with_digit r1 = false -> starts_with_digit r2 = false ->
  d1 +:+ r1 = d2 +:+ r2 -> d1 = d2 /\ r1 = r2.
Proof.
  revert d2. induction d1 as [|c d1 IH]; intros [|c' d2]; simpl;
    intros H1 H2 Hr1 Hr2 E.
  - done.
  - subst r1. simpl in Hr1. apply andb_prop in H2 as [H2 _]. congruence.
  - subst r2. simpl in Hr2. apply andb_prop in H1 as [H1 _]. congruence.
  - apply andb_prop in H1 as [_ H1]. apply andb_prop in H2 as [_ H2].
    injection E as -> E. destruct (IH d2 H1 H2 Hr1 Hr2 E) as [-> ->]. done.
Qed.

(** The digits [pretty_N_go] puts in front of its accumulator. *)
Lemma pretty_N_go_digits (x : N) (s : string) :
  exists d, pretty_N_go x s = d +:+ s /\ all_digits d = true
            /\ ((0 < x)%N -> starts_with_digit d = true).
Proof.
  revert s. induction (N.lt_wf_0 x) as [x _ IH]; intros s.
  destruct (decide (x = 0%N)) as [->|Hx].
  - exists "". rewrite pretty_N_go_0. split_and!; [done|done|lia].
  - assert (0 < x)%N as Hpos by lia.
    rewrite pretty_N_go_step by done.
    destruct (IH (x `div` 10)%N (N.div_lt x 10 Hpos eq_refl)
                 (String (pretty_N_char (x `mod` 10)) s)) as (d & -> & Hd & Hne).
    exists (d +:+ String (pretty_N_char (x `mod` 10)) "").
    split_and!.
    + by rewrite append_assoc.
    + rewrite all_digits_app, Hd. simpl. by rewrite pretty_N_char_digit.
    + intros _. destruct d as [|c d]; simpl.
      * apply pretty_N_char_digit.
      * simpl in Hd. by apply andb_prop in Hd as [-> _].
Qed.

(** [str(n)] is a non-empty run of digits, after a minus sign when [n] is
    negative. *)
Lemma append_empty_r (s : string) : s +:+ "" = s.
Proof. induction s as [|c s IH]; simpl; [done|]. by rewrite IH. Qed.

Lemma fmt_shape (n : Z) :
  exists d, all_digits d = true /\ starts_with_digit d = true
            /\ fmt n = (if bool_decide (n < 0) then "-" +:+ d else d).
Proof.
  destruct n as [|p|p].
  - exists "0". done.
  - destruct (pretty_N_go_digits (N.pos p) "") as (d & E & Hd & Hne).
    rewrite append_empty_r in E.
    exists d. split_and!; [done|apply Hne; lia|].
    rewrite bool_decide_eq_false_2 by lia.
    change (fmt (Z.pos p)) with (pretty_N_go (N.pos p) ""). done.
  - destruct (pretty_N_go_digits (N.pos p) "") as (d & E & Hd & Hne).
    rewrite append_empty_r in E.
    exists d. split_and!; [done|apply Hne; lia|].
    rewrite bool_decide_eq_true_2 by lia.
    change (fmt (Z.neg p)) with ("-" +:+ pretty_N_go (N.pos p) ""). by rewrite E.
Qed.

Lemma fmt_inj (x y : Z) : fmt x = fmt y -> x = y.
Proof. apply (inj (pretty : Z -> string)). Qed.

(** Two formatted integers, each followed by text that does not start with
    a digit: equal strings force equal integers and equal remainders. *)
Lemma fmt_app_inj (x y : Z) (r1 r2 : string) :
  starts_with_digit r1 = false -> starts_with_digit r2 = false ->
  fmt x +:+ r1 = fmt y +:+ r2 -> x = y /\ r1 = r2.
Proof.
  intros Hr1 Hr2 E.
  destruct (fmt_shape x) as (d1 & Hd1 & Hn1 & Ex).
  destruct (fmt_shape y) as (d2 & Hd2 & Hn2 & Ey).
  assert (fmt x = fmt y /\ r1 = r2) as [Hf ->]; [|split; [by apply fmt_inj|done]].
  rewrite Ex, Ey in *. clear Ex Ey.
  repeat case_bool_decide.
  - simpl in E. injection E as E.
    destruct (digits_app_inj d1 d2 r1 r2) as [-> ->]; done.
  - destruct d2 as [|c d2]; [done|]. simpl in E, Hn2. injection E as <- _. done.
  - destruct d1 as [|c d1]; [done|]. simpl in E, Hn1. injection E as -> _. done.
  - destruct (digits_app_inj d1 d2 r1 r2) as [-> ->]; done.
Qed.

(** *** Which coordinates a shard name determines *)

Ltac strip_fmt E :=
  apply fmt_app_inj in E; [|reflexivity|reflexivity];
  let Hn := fresh "Hn" in destruct E as [Hn E];
  apply (inj (String.append _)) in E.

(** SHARDED names determine all six embedded numbers. *)
Lemma optimizer_filename_sharded_inj (c1 c2 : ParallelContext) :
  optimizer_filename c1 true = optimizer_filename c2 true ->
  (pp_rank c1 = pp_rank c2 /\ pp_world_size c1 = pp_world_size c2) /\
  (dp_rank c1 = dp_rank c2 /\ dp_world_size c1 = dp_world_size c2) /\
  (tp_rank c1 = tp_rank c2 /\ tp_world_size c1 = tp_world_size c2).
Proof.
  unfold optimizer_filename, get_local_rank, get_world_size. intros E.
  apply (inj (String.append _)) in E. apply (inj (String.append _)) in E.
  strip_fmt E. strip_fmt E. strip_fmt E. strip_fmt E. strip_fmt E.
  apply fmt_app_inj in E as [? _]; done.
Qed.

(** REPLICATED names determine the four numbers they embed, which are the
    pipeline and the data coordinates. *)
Lemma optimizer_filename_replicated_inj (c1 c2 : ParallelContext) :
  optimizer_filename c1 false = optimizer_filename c2 false ->
  (pp_rank c1 = pp_rank c2 /\ pp_world_size c1 = pp_world_size c2) /\
  (dp_rank c1 = dp_rank c2 /\ dp_world_size c1 = dp_world_size c2).
Proof.
  unfold optimizer_filename, get_local_rank, get_world_size. intros E.
  apply (inj (String.append _)) in E. apply (inj (String.append _)) in E.
  strip_fmt E. strip_fmt E. strip_fmt E.
  apply fmt_app_inj in E as [? _]; done.
Qed.

(** ... and nothing else: the tensor coordinates play no part. *)
Lemma optimizer_filename_replicated_ignores_tensor (c1 c2 : ParallelContext) :
  pp_rank c1 = pp_rank c2 -> pp_world_size c1 = pp_world_size c2 ->
  dp_rank c1 = dp_rank c2 -> dp_world_size c1 = dp_world_size c2 ->
  optimizer_filename c1 false = optimizer_filename c2 false.
Proof.
  unfold optimizer_filename, get_local_rank, get_world_size.
  by intros -> -> -> ->.
Qed.

(** No shard is named like the manifest. *)
Lemma optimizer_filename_not_manifest (pc : ParallelContext) (is_zero : bool) :
  optimizer_filename pc is_zero <> "optimizer_config.json".
Proof. unfold optimizer_filename. by destruct is_zero. Qed.

(** P4: under SHARDED mode, processes at different (pp, dp, tp) positions
    never share a file name. *)
Lemma sharded_names_pairwise_distinct (c1 c2 : ParallelContext) :
  (pp_rank c1, dp_rank c1, tp_rank c1) <> (pp_rank c2, dp_rank c2, tp_rank c2) ->
  optimizer_filename c1 true <> optimizer_filename c2 true.
Proof.
  intros Hne E. apply optimizer_filename_sharded_inj in E.
  destruct E as ((? & _) & (? & _) & (? & _)). apply Hne. congruence.
Qed.

(** C4: in SHARDED mode the name is
    [optimizer_pp-{pp}-of-{PP}_dp-{dp}-of-{DP}_tp-{tp}-of-{TP}.pt]; in
    REPLICATED mode it is [optimizer_pp-{pp}-of-{PP}_tp-{dp}-of-{DP}.pt],
    the data rank and size standing under the tp label, and the tensor rank
    and size appear nowhere in it. *)
Theorem optimizer_filename_format (pc : ParallelContext) :
  optimizer_filename pc true
  = "optimizer_pp-" +:+ fmt (pp_rank pc) +:+ "-of-" +:+ fmt (pp_world_size pc)
    +:+ "_dp-" +:+ fmt (dp_rank pc) +:+ "-of-" +:+ fmt (dp_world_size pc)
    +:+ "_tp-" +:+ fmt (tp_rank pc) +:+ "-of-" +:+ fmt (tp_world_size pc)
    +:+ ".pt"
  /\ optimizer_filename pc false
  = "optimizer_pp-" +:+ fmt (pp_rank pc) +:+ "-of-" +:+ fmt (pp_world_size pc)
    +:+ "_tp-" +:+ fmt (dp_rank pc) +:+ "-of-" +:+ fmt (dp_world_size pc)
    +:+ ".pt"
  /\ forall tp tpw g gw,
       optimizer_filename
         (mkContext (pp_rank pc) (pp_world_size pc) (dp_rank pc) (dp_world_size pc)
                    tp tpw g gw) false
       = optimizer_filename pc false.
Proof.
  split_and!; [reflexivity|reflexivity|].
  intros. by apply optimizer_filename_replicated_ignores_tensor.
Qed.

(** C1, at the input where it breaks: two REPLICATED-mode writers (data
    rank 0) that differ in tensor rank get one and the same shard name. *)
Theorem replicated_tensor_peers_share_a_name :
  wf_context tensor_peer_0 /\ wf_context tensor_peer_1 /\
  owns_write false tensor_peer_0 = true /\ owns_write false tensor_peer_1 = true /\
  tp_rank tensor_peer_0 <> tp_rank tensor_peer_1 /\
  optimizer_filename tensor_peer_0 false = "optimizer_pp-0-of-1_tp-0-of-1.pt" /\
  optimizer_filename tensor_peer_1 false = "optimizer_pp-0-of-1_tp-0-of-1.pt".
Proof.
  unfold wf_context, rank_in_group. simpl. split_and!; (reflexivity || lia).
Qed.

(** ** Running the primitives *)

Ltac io_unfold :=
  unfold mbind, IO_bind, mret, IO_ret, emit, get_world, put_world, raise,
    get_optimizer, get_lr_scheduler; simpl.

Section Runs.
Context {StateDict : Type}.
Implicit Types (w : World StateDict) (fs : gmap Path (Node StateDict)).
Implicit Types (p root : Path) (pc : ParallelContext).

Lemma bind_run {A B} (m : IO StateDict A) (f : A -> IO StateDict B) w :
  (m ≫= f) w = match m w with
               | (Ok a, w') => f a w'
               | (Raise e, w') => (Raise e, w')
               end.
Proof. reflexivity. Qed.

Lemma parent_path_div p (name : string) : parent (p </> name) = p.
Proof. apply removelast_last. Qed.

Lemma path_div_not_root p (name : string) : p </> name <> [].
Proof. unfold path_div. by destruct p. Qed.

Lemma path_div_inj p1 p2 (n1 n2 : string) :
  p1 </> n1 = p2 </> n2 -> p1 = p2 /\ n1 = n2.
Proof. unfold path_div. intros E. by apply app_inj_tail in E. Qed.

Lemma mkdir_run p w :
  mkdir p w =
  (fst (make_dirs [] p (w_fs w)),
   mkWorld (snd (make_dirs [] p (w_fs w))) (w_optimizer w) (w_lr_scheduler w)
           (w_log w ++ [EMkdir p])).
Proof.
  unfold mkdir. io_unfold.
  destruct (make_dirs [] p (w_fs w)) as [[[]|e] fs]; reflexivity.
Qed.

Lemma write_file_run p (n : Node StateDict) w :
  write_file p n w =
  if is_directory (w_fs w) p then (Raise IsADirectoryError, w)
  else if is_directory (w_fs w) (parent p)
       then (Ok tt, set_fs (<[p := n]> (w_fs w)) w)
       else (Raise FileNotFoundError, w).
Proof.
  unfold write_file. io_unfold.
  repeat destruct (is_directory _ _); reflexivity.
Qed.

Lemma torch_save_run (s : StateDict) p w :
  torch_save s p w = write_file p (PickleFile s) (log_event (ETorchSave p s) w).
Proof. reflexivity. Qed.

Lemma json_dump_run (j : Json) p w :
  json_dump j p w = write_file p (JsonFile j) (log_event (EJsonDump p j) w).
Proof. reflexivity. Qed.

Lemma torch_load_run p (loc : option string) w :
  torch_load p loc w =
  (match w_fs w !! p with
   | None => Raise (open_error (w_fs w) [] p)
   | Some Directory => Raise IsADirectoryError
   | Some (JsonFile _) => Raise UnpicklingError
   | Some (PickleFile s) => Ok s
   end, log_event (ETorchLoad p loc) w).
Proof.
  unfold torch_load. io_unfold.
  destruct (w_fs w !! p) as [[]|]; reflexivity.
Qed.

(** *** Directory creation *)

Lemma make_dirs_creates (walked todo : Path) fs fs' :
  make_dirs walked todo fs = (Ok tt, fs') -> todo <> [] ->
  fs' !! (walked ++ todo)%list = Some Directory.
Proof.
  revert walked fs. induction todo as [|name rest IH]; intros walked fs E Hne; [done|].
  simpl in E.
  assert (forall fs0, fs0 !! (walked </> name) = Some Directory ->
            make_dirs (walked </> name) rest fs0 = (Ok tt, fs') ->
            fs' !! (walked ++ name :: rest)%list = Some Directory) as step.
  { intros fs0 Hq E0. destruct rest as [|r rest].
    - simpl in E0. by injection E0 as <-.
    - rewrite (IH _ _ E0) || rewrite <-(IH _ _ E0); try done.
      unfold path_div. by rewrite <-app_assoc. }
  destruct (fs !! (walked </> name)) as [[]|] eqn:Hq; try done.
  - by apply (step fs).
  - apply (step (<[walked </> name := Directory]> fs)); [|done].
    apply lookup_insert_eq.
Qed.

(** Whatever [make_dirs] changes is a directory it created along the path,
    also when it stops on an error. *)
Lemma make_dirs_frame (walked todo : Path) fs q :
  snd (make_dirs walked todo fs) !! q = fs !! q
  \/ (fs !! q = None /\ snd (make_dirs walked todo fs) !! q = Some Directory
      /\ exists k, q = (walked ++ take k todo)%list).
Proof.
  revert walked fs. induction todo as [|name rest IH]; intros walked fs; [by left|].
  simpl. destruct (fs !! (walked </> name)) as [[]|] eqn:Hq; simpl; try by left.
  - destruct (IH (walked </> name) fs) as [E|(E1 & E2 & k & ->)]; [by left|].
    right. split_and!; [done|done|]. exists (S k).
    unfold path_div. by rewrite <-app_assoc.
  - destruct (IH (walked </> name) (<[walked </> name := Directory]> fs))
      as [E|(E1 & E2 & k & ->)].
    + destruct (decide (q = walked </> name)) as [->|Hne].
      * right. rewrite E, lookup_insert_eq. split_and!; [done|done|].
        exists 1%nat. by destruct rest.
      * left. by rewrite E, lookup_insert_ne.
    + right. split_and!; [|done|].
      * destruct (decide ((walked </> name ++ take k rest)%list = walked </> name)) as [Heq|Hne].
        { rewrite Heq in E1. by rewrite lookup_insert_eq in E1. }
        by rewrite lookup_insert_ne in E1.
      * exists (S k). unfold path_div. by rewrite <-app_assoc.
Qed.

(** Creating the same path again succeeds and changes nothing. *)
Lemma make_dirs_idempotent (walked todo : Path) fs fs' :
  make_dirs walked todo fs = (Ok tt, fs') ->
  make_dirs walked todo fs' = (Ok tt, fs').
Proof.
  revert walked fs. induction todo as [|name rest IH]; intros walked fs E.
  - reflexivity.
  - simpl in E.
    assert (exists fs0, fs0 !! (walked </> name) = Some Directory
                        /\ make_dirs (walked </> name) rest fs0 = (Ok tt, fs'))
      as (fs0 & Hq & E0).
    { destruct (fs !! (walked </> name)) as [[]|] eqn:Hq; try done.
      - by exists fs.
      - eexists. split; [apply lookup_insert_eq|done]. }
    assert (fs' !! (walked </> name) = Some Directory) as Hq'.
    { destruct (make_dirs_frame (walked </> name) rest fs0 (walked </> name))
        as [Hsame|(Hnone & _)]; [|congruence].
      rewrite E0 in Hsame. simpl in Hsame. congruence. }
    simpl. rewrite Hq'. by apply (IH _ fs0).
Qed.

(** *** What each primitive adds to the log *)

Lemma write_file_log p (n : Node StateDict) w :
  w_log (write_file p n w).2 = w_log w.
Proof.
  rewrite write_file_run. by repeat destruct (is_directory _ _).
Qed.

Lemma torch_save_log (s : StateDict) p w :
  w_log (torch_save s p w).2 = w_log w ++ [ETorchSave p s].
Proof. by rewrite torch_save_run, write_file_log. Qed.

Lemma json_dump_log (j : Json) p w :
  w_log (json_dump j p w).2 = w_log w ++ [EJsonDump p j].
Proof. by rewrite json_dump_run, write_file_log. Qed.

Lemma is_directory_created (walked todo : Path) fs fs' :
  make_dirs walked todo fs = (Ok tt, fs') -> todo <> [] ->
  is_directory fs' (walked ++ todo) = true.
Proof.
  intros E Hne. unfold is_directory.
  rewrite (make_dirs_creates walked todo fs fs' E Hne).
  by destruct (walked ++ todo).
Qed.

End Runs.

(** ** Saving *)

Section Saving.
Context {StateDict : Type}.
Implicit Types (w : World StateDict) (fs : gmap Path (Node StateDict)).
Implicit Types (root : Path) (pc : ParallelContext).

Lemma wf_context_world_size pc :
  wf_context pc -> bool_decide (get_world_size pc GLOBAL = 0) = false.
Proof.
  intros ([? ?] & _). apply bool_decide_eq_false_2. lia.
Qed.

(** [save_optimizer], one call after the other. *)
Lemma save_optimizer_run pc root w :
  save_optimizer pc root w =
  let d := root </> "optimizer" in
  let o := w_optimizer w in
  let zero := inherit_from o ZeroDistributedOptimizer in
  match mkdir d w with
  | (Raise e, w1) => (Raise e, w1)
  | (Ok _, w1) =>
      match (if bool_decide (get_world_size pc GLOBAL = 0)
             then json_dump [("type", class_name o)] (d </> "optimizer_config.json") w1
             else (Ok tt, w1)) with
      | (Raise e, w2) => (Raise e, w2)
      | (Ok _, w2) =>
          if negb zero && bool_decide (get_local_rank pc DATA > 0)
          then (Ok tt, w2)
          else torch_save (state_dict o) (d </> optimizer_filename pc zero) w2
      end
  end.
Proof.
  cbv beta iota zeta delta
    [save_optimizer mbind IO_bind get_optimizer mret IO_ret].
  destruct (mkdir _ w) as [[[]|e] w1]; [|reflexivity].
  destruct (bool_decide (get_world_size pc GLOBAL = 0));
    [destruct (json_dump _ _ w1) as [[[]|e] w2]|];
    try reflexivity;
    destruct (negb _ && _); reflexivity.
Qed.

(** The same for a well-formed context whose directory creation goes
    through: the manifest branch is not taken. *)
Lemma save_optimizer_run_wf pc root w fs1 :
  wf_context pc ->
  make_dirs [] (root </> "optimizer") (w_fs w) = (Ok tt, fs1) ->
  save_optimizer pc root w =
  let d := root </> "optimizer" in
  let o := w_optimizer w in
  let zero := inherit_from o ZeroDistributedOptimizer in
  let w1 := mkWorld fs1 o (w_lr_scheduler w) (w_log w ++ [EMkdir d]) in
  if negb zero && bool_decide (get_local_rank pc DATA > 0)
  then (Ok tt, w1)
  else torch_save (state_dict o) (d </> optimizer_filename pc zero) w1.
Proof.
  intros Hwf Hmk. rewrite save_optimizer_run. cbv zeta.
  rewrite mkdir_run, Hmk, (wf_context_world_size pc Hwf). reflexivity.
Qed.

Lemma owns_write_spec (sharded : bool) pc :
  0 <= dp_rank pc ->
  negb sharded && bool_decide (get_local_rank pc DATA > 0)
  = negb (owns_write sharded pc).
Proof.
  intros Hr. unfold owns_write. simpl. destruct sharded; simpl; [done|].
  repeat case_bool_decide; (done || lia).
Qed.

(** C3: a process writes its optimizer state exactly when it owns the
    write, [mode == SHARDED or data_rank == 0]: an owner calls [torch.save]
    once, on its own shard and with its own state; any other process
    returns normally having created the folder only. *)
Theorem save_optimizer_writes_iff_owner pc root w fs1 :
  wf_context pc ->
  make_dirs [] (root </> "optimizer") (w_fs w) = (Ok tt, fs1) ->
  let optimizer := w_optimizer w in
  let sharded := inherit_from optimizer ZeroDistributedOptimizer in
  let shard := root </> "optimizer" </> optimizer_filename pc sharded in
  let result := save_optimizer pc root w in
  (owns_write sharded pc = true ->
     saves_of (w_log result.2) = saves_of (w_log w) ++ [(shard, state_dict optimizer)]
     /\ (is_directory fs1 shard = false ->
         result.1 = Ok tt
         /\ w_fs result.2 = <[shard := PickleFile (state_dict optimizer)]> fs1))
  /\ (owns_write sharded pc = false ->
     result.1 = Ok tt
     /\ saves_of (w_log result.2) = saves_of (w_log w)
     /\ w_fs result.2 = fs1)
  /\ (sharded = true -> owns_write sharded pc = true)
  /\ (sharded = false -> (owns_write sharded pc = true <-> dp_rank pc = 0)).
Proof.
  intros Hwf Hmk optimizer sharded shard result.
  assert (0 <= dp_rank pc) as Hdp by (destruct Hwf as (_ & [? _] & _); done).
  subst result. rewrite (save_optimizer_run_wf pc root w fs1 Hwf Hmk). cbv zeta.
  fold optimizer sharded. rewrite (owns_write_spec sharded pc Hdp).
  split_and!.
  - intros ->. simpl. rewrite torch_save_run, write_file_run. simpl.
    subst shard. rewrite parent_path_div.
    split.
    + unfold saves_of.
      repeat destruct (is_directory _ _); simpl;
        by rewrite !omap_app, app_nil_r.
    + intros ->.
      pose proof (is_directory_created [] (root </> "optimizer") (w_fs w) fs1 Hmk
                    (path_div_not_root root "optimizer")) as Hd.
      simpl in Hd. by rewrite Hd.
  - intros ->. simpl. split_and!; [done| |done].
    unfold saves_of. by rewrite omap_app, app_nil_r.
  - intros ->. done.
  - intros ->. unfold owns_write. simpl. by rewrite bool_decide_eq_true.
Qed.

(** No process of a non-empty world writes the manifest: the branch asks
    whether the world size is zero. *)
Lemma save_optimizer_dumps_nothing pc root w :
  wf_context pc ->
  dumps_of (w_log (save_optimizer pc root w).2) = dumps_of (w_log w).
Proof.
  intros Hwf. rewrite save_optimizer_run. cbv zeta.
  rewrite mkdir_run, (wf_context_world_size pc Hwf).
  destruct (make_dirs [] (root </> "optimizer") (w_fs w)) as [[[]|e] fs1]; simpl.
  - destruct (negb _ && _); simpl.
    + unfold dumps_of. by rewrite omap_app, app_nil_r.
    + rewrite torch_save_run, write_file_run. simpl. unfold dumps_of.
      repeat destruct (is_directory _ _); simpl;
        by rewrite !omap_app, !app_nil_r.
  - unfold dumps_of. by rewrite omap_app, app_nil_r.
Qed.

Lemma save_lr_scheduler_run pc root w :
  save_lr_scheduler pc root w =
  if bool_decide (get_global_rank pc > 0) then (Ok tt, w)
  else
    let d := root </> "lr_scheduler" in
    match mkdir d w with
    | (Raise e, w1) => (Raise e, w1)
    | (Ok _, w1) =>
        torch_save (scheduler_state (w_lr_scheduler w)) (d </> lr_scheduler_filename) w1
    end.
Proof.
  cbv beta iota zeta delta
    [save_lr_scheduler mbind IO_bind get_lr_scheduler mret IO_ret].
  destruct (bool_decide _); [reflexivity|].
  destruct (mkdir _ w) as [[[]|e] w1]; reflexivity.
Qed.

(** C9: every process starts [save_optimizer] by creating
    [root/optimizer]; a process that then skips the write (REPLICATED mode,
    data rank above 0) returns normally and leaves the folder behind, where
    creating it once more changes nothing, while [save_lr_scheduler] on a
    process of global rank above 0 returns at once and leaves the world as
    it found it. *)
Theorem save_skip_creates_folder_scheduler_skip_does_not pc root w :
  (exists later,
     w_log (save_optimizer pc root w).2
     = w_log w ++ EMkdir (root </> "optimizer") :: later)
  /\ (forall fs1,
       wf_context pc ->
       inherit_from (w_optimizer w) ZeroDistributedOptimizer = false ->
       dp_rank pc > 0 ->
       make_dirs [] (root </> "optimizer") (w_fs w) = (Ok tt, fs1) ->
       save_optimizer pc root w
       = (Ok tt, mkWorld fs1 (w_optimizer w) (w_lr_scheduler w)
                         (w_log w ++ [EMkdir (root </> "optimizer")]))
       /\ fs1 !! (root </> "optimizer") = Some Directory
       /\ make_dirs [] (root </> "optimizer") fs1 = (Ok tt, fs1))
  /\ (get_global_rank pc > 0 -> save_lr_scheduler pc root w = (Ok tt, w)).
Proof.
  split_and!.
  - rewrite save_optimizer_run. cbv zeta. rewrite mkdir_run.
    destruct (make_dirs [] (root </> "optimizer") (w_fs w)) as [[[]|e] fs1];
      [|by exists []].
    cbn [fst snd]. set (w1 := mkWorld fs1 _ _ _).
    assert (exists evs w2,
              (if bool_decide (get_world_size pc GLOBAL = 0)
               then json_dump [("type", class_name (w_optimizer w))]
                      (root </> "optimizer" </> "optimizer_config.json") w1
               else (Ok tt, w1)).2 = w2
              /\ w_log w2 = w_log w1 ++ evs) as (evs & w2 & E2 & Hlog).
    { destruct (bool_decide _).
      - eexists _, _. split; [done|]. apply json_dump_log.
      - exists [], w1. by rewrite app_nil_r. }
    destruct (if bool_decide _ then _ else _) as [[[]|e] w2'];
      simpl in E2; subst w2'.
    + destruct (negb _ && _); cbn [snd].
      * exists evs. rewrite Hlog. subst w1. simpl. by rewrite <-app_assoc.
      * exists (evs ++ [ETorchSave
                          (root </> "optimizer"
                             </> optimizer_filename pc
                                   (inherit_from (w_optimizer w) ZeroDistributedOptimizer))
                          (state_dict (w_optimizer w))]).
        rewrite torch_save_log, Hlog. subst w1. simpl. by rewrite <-!app_assoc.
    + exists evs. cbn [snd]. rewrite Hlog. subst w1. simpl. by rewrite <-app_assoc.
  - intros fs1 Hwf Hz Hdp Hmk.
    rewrite (save_optimizer_run_wf pc root w fs1 Hwf Hmk). cbv zeta.
    rewrite Hz. cbn [negb andb get_local_rank].
    rewrite bool_decide_eq_true_2 by done. split_and!; [done| |].
    + apply (make_dirs_creates [] (root </> "optimizer") (w_fs w) fs1 Hmk).
      apply path_div_not_root.
    + by apply (make_dirs_idempotent [] (root </> "optimizer") (w_fs w)).
  - intros Hr. rewrite save_lr_scheduler_run.
    by rewrite bool_decide_eq_true_2.
Qed.

End Saving.

(** ** Loading *)

Section Loading.
Context {StateDict : Type}.
Implicit Types (w : World StateDict) (fs : gmap Path (Node StateDict)).
Implicit Types (root : Path) (pc : ParallelContext) (loc : option string).

Lemma load_optimizer_run pc root loc w :
  load_optimizer pc root loc w =
  let o := w_optimizer w in
  let sharded := inherit_from o ZeroDistributedOptimizer in
  let shard := root </> "optimizer" </> optimizer_filename pc sharded in
  let target := if sharded then loc else Some "cpu" in
  let w1 := log_event (ETorchLoad shard target) w in
  match w_fs w !! shard with
  | None => (Raise (open_error (w_fs w) [] shard), w1)
  | Some Directory => (Raise IsADirectoryError, w1)
  | Some (JsonFile _) => (Raise UnpicklingError, w1)
  | Some (PickleFile s) =>
      (Ok tt,
       mkWorld (w_fs w) (mkOptimizer (class_name o) (lineage o) s) (w_lr_scheduler w)
               (w_log w ++ [ETorchLoad shard target; EOptimizerLoadStateDict s]))
  end.
Proof.
  cbv beta iota zeta delta [load_optimizer mbind IO_bind get_optimizer].
  rewrite torch_load_run.
  destruct (inherit_from (w_optimizer w) ZeroDistributedOptimizer); cbn [negb];
    destruct (w_fs w !! _) as [[]|]; try reflexivity;
    unfold optimizer_load_state_dict; io_unfold; by rewrite <-app_assoc.
Qed.

Lemma load_lr_scheduler_run root w :
  load_lr_scheduler root w =
  let file := root </> "lr_scheduler" </> lr_scheduler_filename in
  let w1 := log_event (ETorchLoad file None) w in
  match w_fs w !! file with
  | None => (Raise (open_error (w_fs w) [] file), w1)
  | Some Directory => (Raise IsADirectoryError, w1)
  | Some (JsonFile _) => (Raise UnpicklingError, w1)
  | Some (PickleFile s) =>
      (Ok tt,
       mkWorld (w_fs w) (w_optimizer w) (mkLRScheduler s)
               (w_log w ++ [ETorchLoad file None; ESchedulerLoadStateDict s]))
  end.
Proof.
  cbv beta iota zeta delta [load_lr_scheduler mbind IO_bind].
  rewrite torch_load_run.
  destruct (w_fs w !! _) as [[]|]; try reflexivity.
  unfold scheduler_load_state_dict; io_unfold; by rewrite <-app_assoc.
Qed.

(** C8: [torch.load] is called with ["cpu"] when the optimizer is not a
    ZeroDistributedOptimizer (REPLICATED), whatever the caller passed, and
    with the caller's [map_location] when it is one (SHARDED). *)
Theorem load_optimizer_map_location pc root loc w :
  let sharded := inherit_from (w_optimizer w) ZeroDistributedOptimizer in
  loads_of (w_log (load_optimizer pc root loc w).2)
  = loads_of (w_log w)
    ++ [(root </> "optimizer" </> optimizer_filename pc sharded,
         if sharded then loc else Some "cpu")].
Proof.
  rewrite load_optimizer_run. cbv zeta. unfold loads_of.
  destruct (w_fs w !! _) as [[]|]; simpl; by rewrite omap_app.
Qed.

(** C10: [load_state_dict] runs only after [torch.load] has returned a
    mapping.  When the file is missing or is not a pickled mapping the call
    raises, the only thing that happened is the [torch.load] attempt, and
    optimizer, scheduler and filesystem are as before; the same holds for
    the scheduler. *)
Theorem load_failure_leaves_state_untouched pc root loc w :
  let sharded := inherit_from (w_optimizer w) ZeroDistributedOptimizer in
  let shard := root </> "optimizer" </> optimizer_filename pc sharded in
  let target := if sharded then loc else Some "cpu" in
  let file := root </> "lr_scheduler" </> lr_scheduler_filename in
  let after_opt := load_optimizer pc root loc w in
  let after_sched := load_lr_scheduler root w in
  ((forall s, w_fs w !! shard <> Some (PickleFile s)) -> exists e, after_opt.1 = Raise e)
  /\ (forall e, after_opt.1 = Raise e ->
       w_optimizer after_opt.2 = w_optimizer w
       /\ w_fs after_opt.2 = w_fs w
       /\ w_log after_opt.2 = w_log w ++ [ETorchLoad shard target])
  /\ (forall s, w_fs w !! shard = Some (PickleFile s) ->
       after_opt.1 = Ok tt
       /\ state_dict (w_optimizer after_opt.2) = s
       /\ w_log after_opt.2
          = w_log w ++ [ETorchLoad shard target; EOptimizerLoadStateDict s])
  /\ ((forall s, w_fs w !! file <> Some (PickleFile s)) -> exists e, after_sched.1 = Raise e)
  /\ (forall e, after_sched.1 = Raise e ->
       w_lr_scheduler after_sched.2 = w_lr_scheduler w
       /\ w_fs after_sched.2 = w_fs w
       /\ w_log after_sched.2 = w_log w ++ [ETorchLoad file None])
  /\ (forall s, w_fs w !! file = Some (PickleFile s) ->
       after_sched.1 = Ok tt
       /\ scheduler_state (w_lr_scheduler after_sched.2) = s
       /\ w_log after_sched.2
          = w_log w ++ [ETorchLoad file None; ESchedulerLoadStateDict s]).
Proof.
  intros sharded shard target file after_opt after_sched.
  subst after_opt after_sched.
  rewrite load_optimizer_run, load_lr_scheduler_run. cbv zeta.
  fold sharded shard target file.
  split_and!.
  - intros Hno. destruct (w_fs w !! shard) as [[| |s]|]; simpl; eauto.
    by destruct (Hno s).
  - intros e. by destruct (w_fs w !! shard) as [[| |s]|].
  - by intros s ->.
  - intros Hno. destruct (w_fs w !! file) as [[| |s]|]; simpl; eauto.
    by destruct (Hno s).
  - intros e. by destruct (w_fs w !! file) as [[| |s]|].
  - by intros s ->.
Qed.

(** *** Save, then load *)

(** A successful save by an owner leaves its state at its shard path, and
    that is the one [torch.save] it made. *)
Lemma save_optimizer_leaves_shard pc root w w1 :
  owns_write (inherit_from (w_optimizer w) ZeroDistributedOptimizer) pc = true ->
  save_optimizer pc root w = (Ok tt, w1) ->
  let shard := root </> "optimizer"
                 </> optimizer_filename pc
                       (inherit_from (w_optimizer w) ZeroDistributedOptimizer) in
  w_fs w1 !! shard = Some (PickleFile (state_dict (w_optimizer w)))
  /\ saves_of (w_log w1) = saves_of (w_log w) ++ [(shard, state_dict (w_optimizer w))].
Proof.
  intros Hown. rewrite save_optimizer_run. cbv zeta.
  pose proof (mkdir_run (root </> "optimizer") w) as Ha.
  destruct (mkdir _ w) as [[[]|e] wa]; [|done].
  apply (f_equal (fun r => saves_of (w_log r.2))) in Ha. simpl in Ha.
  assert (forall r wb,
            (if bool_decide (get_world_size pc GLOBAL = 0)
             then json_dump [("type", class_name (w_optimizer w))]
                    (root </> "optimizer" </> "optimizer_config.json") wa
             else (Ok tt, wa)) = (r, wb) ->
            saves_of (w_log wb) = saves_of (w_log wa)) as Hb.
  { intros r wb. destruct (bool_decide _).
    - intros E. apply (f_equal (fun r => w_log r.2)) in E.
      rewrite json_dump_log in E. simpl in E. rewrite <-E.
      unfold saves_of. by rewrite omap_app, app_nil_r.
    - by intros [= _ <-]. }
  destruct (if bool_decide _ then _ else _) as [[[]|e] wb]; [|done].
  specialize (Hb _ _ eq_refl).
  assert (negb (inherit_from (w_optimizer w) ZeroDistributedOptimizer)
          && bool_decide (get_local_rank pc DATA > 0) = false) as ->.
  { unfold owns_write in Hown. simpl.
    destruct (inherit_from _ _); simpl in *; [done|].
    apply bool_decide_eq_true in Hown. apply bool_decide_eq_false_2. lia. }
  rewrite torch_save_run, write_file_run.
  repeat destruct (is_directory _ _); try done.
  intros [= <-]. simpl. split; [apply lookup_insert_eq|].
  unfold saves_of in *. rewrite omap_app. simpl. by rewrite Hb, Ha, omap_app, app_nil_r.
Qed.

(** C5: what an owner saved is what it gets back.  After a successful
    [save_optimizer], a [load_optimizer] by a process at the same
    coordinates, in the same mode and on the same root, seeing the
    filesystem the save left, hands [load_state_dict] the mapping that was
    saved. *)
Theorem save_then_load_round_trip pc root loc w w1 w2 :
  owns_write (inherit_from (w_optimizer w) ZeroDistributedOptimizer) pc = true ->
  save_optimizer pc root w = (Ok tt, w1) ->
  w_fs w2 = w_fs w1 ->
  inherit_from (w_optimizer w2) ZeroDistributedOptimizer
  = inherit_from (w_optimizer w) ZeroDistributedOptimizer ->
  let sharded := inherit_from (w_optimizer w) ZeroDistributedOptimizer in
  let shard := root </> "optimizer" </> optimizer_filename pc sharded in
  let saved := state_dict (w_optimizer w) in
  let loaded := load_optimizer pc root loc w2 in
  loaded.1 = Ok tt
  /\ state_dict (w_optimizer loaded.2) = saved
  /\ w_log loaded.2
     = w_log w2 ++ [ETorchLoad shard (if sharded then loc else Some "cpu");
                    EOptimizerLoadStateDict saved]
  /\ saves_of (w_log w1) = saves_of (w_log w) ++ [(shard, saved)].
Proof.
  intros Hown Hsave Hfs Hmode sharded shard saved loaded.
  pose proof (save_optimizer_leaves_shard pc root w w1 Hown Hsave) as Hshard.
  cbv zeta in Hshard. fold sharded shard saved in Hshard.
  subst loaded. rewrite load_optimizer_run. cbv zeta.
  destruct Hshard as [Hshard Hsaves].
  rewrite Hmode, Hfs. fold sharded shard.
  by rewrite Hshard.
Qed.

(** *** Shards of another run *)

Lemma write_file_fs (p : Path) (n : Node StateDict) w :
  w_fs (write_file p n w).2 = w_fs w
  \/ w_fs (write_file p n w).2 = <[p := n]> (w_fs w).
Proof.
  rewrite write_file_run. repeat destruct (is_directory _ _); simpl; auto.
Qed.

Lemma checkpoint_of_run_insert (sharded : bool) (ppw dpw tpw : Z) root fs
    (name : string) (n : Node StateDict) :
  checkpoint_of_run sharded ppw dpw tpw root fs ->
  name = "optimizer_config.json" \/ shard_of_run sharded ppw dpw tpw name ->
  checkpoint_of_run sharded ppw dpw tpw root (<[root </> "optimizer" </> name := n]> fs).
Proof.
  intros Hfs Hname other Hsome.
  destruct (decide (root </> "optimizer" </> name = root </> "optimizer" </> other))
    as [E|Hne].
  - apply path_div_inj in E as [_ <-]. done.
  - rewrite lookup_insert_ne in Hsome by done. by apply Hfs.
Qed.

Lemma checkpoint_of_run_make_dirs (sharded : bool) (ppw dpw tpw : Z) root fs :
  checkpoint_of_run sharded ppw dpw tpw root fs ->
  checkpoint_of_run sharded ppw dpw tpw root
    (make_dirs [] (root </> "optimizer") fs).2.
Proof.
  intros Hfs name Hsome.
  destruct (make_dirs_frame [] (root </> "optimizer") fs
              (root </> "optimizer" </> name)) as [E|(_ & _ & k & E)].
  - rewrite E in Hsome. by apply Hfs.
  - apply (f_equal length) in E. simpl in E.
    unfold path_div in E at 1. rewrite length_app, length_take in E.
    simpl in E. lia.
Qed.

(** Saving keeps the folder a checkpoint of the run the saver belongs to. *)
Lemma save_optimizer_keeps_checkpoint_of_run pc root w :
  let sharded := inherit_from (w_optimizer w) ZeroDistributedOptimizer in
  checkpoint_of_run sharded (pp_world_size pc) (dp_world_size pc) (tp_world_size pc)
    root (w_fs w) ->
  checkpoint_of_run sharded (pp_world_size pc) (dp_world_size pc) (tp_world_size pc)
    root (w_fs (save_optimizer pc root w).2).
Proof.
  intros sharded Hfs. rewrite save_optimizer_run. cbv zeta. rewrite mkdir_run.
  apply checkpoint_of_run_make_dirs in Hfs.
  destruct (make_dirs [] (root </> "optimizer") (w_fs w)) as [[[]|e] fs1];
    [|done].
  cbn [fst snd] in *. set (w1 := mkWorld fs1 _ _ _).
  assert (forall r wb,
            (if bool_decide (get_world_size pc GLOBAL = 0)
             then json_dump [("type", class_name (w_optimizer w))]
                    (root </> "optimizer" </> "optimizer_config.json") w1
             else (Ok tt, w1)) = (r, wb) ->
            checkpoint_of_run sharded (pp_world_size pc) (dp_world_size pc)
              (tp_world_size pc) root (w_fs wb)) as Hb.
  { intros r wb. destruct (bool_decide _).
    - intros E. apply (f_equal (fun r => w_fs r.2)) in E. simpl in E. subst.
      rewrite <-E, json_dump_run.
      destruct (write_file_fs (root </> "optimizer" </> "optimizer_config.json")
                  (JsonFile [("type", class_name (w_optimizer w))])
                  (log_event (EJsonDump (root </> "optimizer" </> "optimizer_config.json")
                     [("type", class_name (w_optimizer w))]) w1)) as [-> | ->];
        [done|]. apply checkpoint_of_run_insert; auto.
    - by intros [= _ <-]. }
  destruct (if bool_decide _ then _ else _) as [[[]|e] wb];
    specialize (Hb _ _ eq_refl); [|done].
  destruct (negb _ && _); [done|].
  rewrite torch_save_run.
  destruct (write_file_fs
              (root </> "optimizer" </> optimizer_filename pc sharded)
              (PickleFile (state_dict (w_optimizer w)))
              (log_event (ETorchSave
                 (root </> "optimizer" </> optimizer_filename pc sharded)
                 (state_dict (w_optimizer w))) wb)) as [E | E];
    fold sharded; rewrite E; [done|].
  apply checkpoint_of_run_insert; [done|]. right. by exists pc.
Qed.

(** When creating [walked/todo] would go through, no file stands on the
    way to an entry of that folder, so a missing entry is answered
    [FileNotFoundError]. *)
Lemma open_error_creatable (walked todo : Path) (name : string) fs :
  (make_dirs walked todo fs).1 = Ok tt ->
  open_error fs walked (todo ++ [name]) = FileNotFoundError.
Proof.
  revert walked fs. induction todo as [|x rest IH]; intros walked fs Hmk; [done|].
  assert (open_error fs walked ((x :: rest) ++ [name])
          = match fs !! (walked </> x) with
            | Some Directory => open_error fs (walked </> x) (rest ++ [name])
            | None => FileNotFoundError
            | Some _ => NotADirectoryError
            end) as ->.
  { simpl. by destruct rest. }
  simpl in Hmk.
  destruct (fs !! (walked </> x)) as [[]|]; try done.
  by apply IH.
Qed.

(** X16: with no file standing on the way to [root/optimizer],
    [load_optimizer] raises [FileNotFoundError] exactly when nothing is
    stored at the caller's own shard path; it then made one [torch.load]
    attempt and nothing else.  On a folder written by another run this
    happens whenever that run differs in a group size the name embeds: any
    of the three in SHARDED mode, the pipeline or the data size in
    REPLICATED mode. *)
Theorem load_optimizer_not_found pc root loc w :
  (make_dirs [] (root </> "optimizer") (w_fs w)).1 = Ok tt ->
  let sharded := inherit_from (w_optimizer w) ZeroDistributedOptimizer in
  let shard := root </> "optimizer" </> optimizer_filename pc sharded in
  let target := if sharded then loc else Some "cpu" in
  let loaded := load_optimizer pc root loc w in
  (loaded.1 = Raise FileNotFoundError <-> w_fs w !! shard = None)
  /\ (w_fs w !! shard = None -> loaded.2 = log_event (ETorchLoad shard target) w)
  /\ (forall ppw dpw tpw,
       checkpoint_of_run sharded ppw dpw tpw root (w_fs w) ->
       pp_world_size pc <> ppw \/ dp_world_size pc <> dpw
       \/ (sharded = true /\ tp_world_size pc <> tpw) ->
       loaded.1 = Raise FileNotFoundError).
Proof.
  intros Hdir sharded shard target loaded.
  pose proof (open_error_creatable [] (root </> "optimizer")
                (optimizer_filename pc sharded) (w_fs w) Hdir) as Herr.
  change ([] ++ root </> "optimizer") with (root </> "optimizer") in Herr.
  change (root </> "optimizer" ++ [optimizer_filename pc sharded]) with shard in Herr.
  assert (loaded.1 = Raise FileNotFoundError <-> w_fs w !! shard = None) as Hiff.
  { subst loaded. rewrite load_optimizer_run. cbv zeta. fold sharded shard.
    destruct (w_fs w !! shard) as [[]|]; [done..|]. by rewrite Herr. }
  split_and!; [done| |].
  - subst loaded. rewrite load_optimizer_run. cbv zeta. fold sharded shard.
    by intros ->.
  - intros ppw dpw tpw Hrun Hdiff. apply Hiff.
    destruct (w_fs w !! shard) as [n|] eqn:Hn; [exfalso|done].
    destruct (Hrun (optimizer_filename pc sharded)) as [Hm|(pc' & Hp & Hd & Ht & E)].
    { fold shard. by rewrite Hn. }
    { by apply optimizer_filename_not_manifest in Hm. }
    destruct sharded.
    + apply optimizer_filename_sharded_inj in E as ((_ & ?) & (_ & ?) & (_ & ?)).
      destruct Hdiff as [?|[?|(_ & ?)]]; congruence.
    + apply optimizer_filename_replicated_inj in E as ((_ & ?) & (_ & ?)).
      destruct Hdiff as [?|[?|(? & _)]]; congruence.
Qed.

End Loading.

(** ** The scheduler file *)

Section Scheduler.
Context {StateDict : Type}.
Implicit Types (w : World StateDict) (root : Path) (pc : ParallelContext).

(** C6: [save_lr_scheduler] writes on global rank 0 and on no other rank,
    and what it writes is [root/lr_scheduler/lr_scheduler.pt]; the load
    takes no coordinates and reads that very path. *)
Theorem lr_scheduler_singleton pc root w :
  0 <= get_global_rank pc ->
  let file := root </> "lr_scheduler" </> "lr_scheduler.pt" in
  let state := scheduler_state (w_lr_scheduler w) in
  let saved := save_lr_scheduler pc root w in
  (get_global_rank pc <> 0 -> saved = (Ok tt, w))
  /\ (get_global_rank pc = 0 ->
      forall fs1,
        make_dirs [] (root </> "lr_scheduler") (w_fs w) = (Ok tt, fs1) ->
        saves_of (w_log saved.2) = saves_of (w_log w) ++ [(file, state)]
        /\ (is_directory fs1 file = false ->
            saved.1 = Ok tt /\ w_fs saved.2 = <[file := PickleFile state]> fs1))
  /\ loads_of (w_log (load_lr_scheduler root w).2)
     = loads_of (w_log w) ++ [(file, None)].
Proof.
  intros Hrank file state saved. subst saved.
  rewrite save_lr_scheduler_run, load_lr_scheduler_run. cbv zeta.
  change (root </> "lr_scheduler" </> lr_scheduler_filename) with file.
  split_and!.
  - intros Hne. by rewrite bool_decide_eq_true_2 by lia.
  - intros Hz fs1 Hmk. rewrite bool_decide_eq_false_2 by lia.
    rewrite mkdir_run, Hmk. cbn [fst snd]. fold state. split.
    + rewrite torch_save_log. cbn [w_log]. unfold saves_of.
      by rewrite !omap_app, app_nil_r.
    + intros Hfile.
      rewrite torch_save_run, write_file_run. cbn [w_fs log_event].
      rewrite Hfile. subst file. rewrite parent_path_div.
      pose proof (is_directory_created [] (root </> "lr_scheduler") (w_fs w) fs1 Hmk
                    (path_div_not_root root "lr_scheduler")) as Hd.
      simpl in Hd. by rewrite Hd.
  - unfold loads_of. destruct (w_fs w !! file) as [[]|]; simpl; by rewrite omap_app.
Qed.

End Scheduler.

(** ** The code on sample processes *)

(** C2, at the input where it breaks: the only process of a one-process
    world has global rank 0; its save goes through and writes its shard,
    but no [optimizer_config.json] and no [json.dump] call come of it. *)
Theorem rank_zero_save_writes_no_manifest :
  let saved := save_optimizer solo ckpt (process ∅ (adam 7) 0) in
  wf_context solo /\ get_global_rank solo = 0
  /\ saved.1 = Ok tt
  /\ w_fs saved.2 !! (ckpt </> "optimizer" </> "optimizer_config.json") = None
  /\ w_log saved.2
     = [EMkdir (ckpt </> "optimizer");
        ETorchSave (ckpt </> "optimizer" </> "optimizer_pp-0-of-1_tp-0-of-1.pt") 7%nat].
Proof.
  unfold wf_context, rank_in_group. simpl.
  split_and!; try lia; by vm_compute.
Qed.

(** What the shared name costs: two tensor peers save one after the other
    into the same root, and the state of the first is gone. *)
Lemma replicated_tensor_peers_overwrite :
  let first := save_optimizer tensor_peer_0 ckpt (process ∅ (adam 7) 0) in
  let second := save_optimizer tensor_peer_1 ckpt (process (w_fs first.2) (adam 9) 0) in
  first.1 = Ok tt /\ second.1 = Ok tt
  /\ map_to_list (w_fs second.2)
     = [(ckpt, Directory);
        (ckpt </> "optimizer" </> "optimizer_pp-0-of-1_tp-0-of-1.pt", PickleFile 9%nat);
        (ckpt </> "optimizer", Directory)].
Proof. by vm_compute. Qed.

(** The other side of the same naming: in REPLICATED mode a process of
    data rank 1 looks for a shard of its own, which no process writes. *)
Lemma replicated_data_peer_finds_no_shard :
  let first := save_optimizer data_peer_0 ckpt (process ∅ (adam 7) 0) in
  let second := save_optimizer data_peer_1 ckpt (process (w_fs first.2) (adam 7) 0) in
  saves_of (w_log second.2) = []
  /\ (load_optimizer data_peer_1 ckpt None (process (w_fs second.2) (adam 0) 0)).1
     = Raise FileNotFoundError.
Proof. by vm_compute. Qed.

(** C7, at the input where it breaks: a REPLICATED checkpoint written with
    one tensor rank is read by a process of a run with two, from a world
    twice the size, and the load goes through instead of raising: the name
    it looks for carries no tensor coordinate. *)
Lemma replicated_load_after_tensor_resize_succeeds :
  let saved := save_optimizer solo ckpt (process ∅ (adam 7) 0) in
  let loaded := load_optimizer tensor_peer_1 ckpt None
                  (process (w_fs saved.2) (adam 0) 0) in
  tp_world_size tensor_peer_1 <> tp_world_size solo
  /\ global_world_size tensor_peer_1 <> global_world_size solo
  /\ saved.1 = Ok tt
  /\ loaded.1 = Ok tt
  /\ state_dict (w_optimizer loaded.2) = 7%nat.
Proof. simpl. split_and!; try lia; by vm_compute. Qed.

(** ** The theorems at work on sample processes *)

Lemma wf_context_samples :
  wf_context solo /\ wf_context data_peer_0 /\ wf_context data_peer_1.
Proof. unfold wf_context, rank_in_group. simpl. lia. Defined.

(** A SHARDED process of data rank 1 writes; a REPLICATED one does not. *)
Lemma save_optimizer_writes_iff_owner_witness :
  let sharded_run := save_optimizer data_peer_1 ckpt (process ∅ (zero_adam 7) 0) in
  let replicated_run := save_optimizer data_peer_1 ckpt (process ∅ (adam 7) 0) in
  wf_context data_peer_1
  /\ make_dirs [] (ckpt </> "optimizer") ∅ = (Ok tt, fresh_optimizer_dirs)
  /\ saves_of (w_log sharded_run.2)
     = [(ckpt </> "optimizer" </> "optimizer_pp-0-of-1_dp-1-of-2_tp-0-of-1.pt", 7%nat)]
  /\ (replicated_run.1 = Ok tt /\ saves_of (w_log replicated_run.2) = []
      /\ w_fs replicated_run.2 = fresh_optimizer_dirs).
Proof.
  assert (wf_context data_peer_1) as Hwf by apply wf_context_samples.
  assert (make_dirs [] (ckpt </> "optimizer") ∅ = (Ok tt, fresh_optimizer_dirs))
    as Hmk by (vm_compute; reflexivity).
  pose proof (save_optimizer_writes_iff_owner data_peer_1 ckpt
                (process ∅ (zero_adam 7) 0) fresh_optimizer_dirs Hwf Hmk)
    as (Hown & _).
  pose proof (save_optimizer_writes_iff_owner data_peer_1 ckpt
                (process ∅ (adam 7) 0) fresh_optimizer_dirs Hwf Hmk)
    as (_ & Hskip & _).
  destruct (Hown eq_refl) as (Hsaves & _).
  destruct (Hskip eq_refl) as (Hres & Hnone & Hfs).
  split; [exact Hwf|]. split; [exact Hmk|]. split; [exact Hsaves|].
  split; [exact Hres|]. split; [exact Hnone|exact Hfs].
Defined.

Lemma save_then_load_round_trip_witness :
  let w := process ∅ (zero_adam 7) 0 in
  let w1 := (save_optimizer data_peer_1 ckpt w).2 in
  let w2 := process (w_fs w1) (zero_adam 0) 0 in
  let loaded := load_optimizer data_peer_1 ckpt (Some "cuda:1") w2 in
  owns_write true data_peer_1 = true
  /\ save_optimizer data_peer_1 ckpt w = (Ok tt, w1)
  /\ loaded.1 = Ok tt
  /\ state_dict (w_optimizer loaded.2) = 7%nat.
Proof.
  intros w w1 w2 loaded.
  assert (save_optimizer data_peer_1 ckpt w = (Ok tt, w1)) as Hsave
    by (vm_compute; reflexivity).
  split_and!; [reflexivity|exact Hsave| |];
    apply (save_then_load_round_trip data_peer_1 ckpt (Some "cuda:1") w w1 w2);
    (exact Hsave || reflexivity).
Defined.

Lemma lr_scheduler_singleton_witness :
  let w := process ∅ (adam 7) 3 in
  0 <= get_global_rank solo
  /\ (save_lr_scheduler solo ckpt w).1 = Ok tt
  /\ w_fs (save_lr_scheduler solo ckpt w).2
     = <[ckpt </> "lr_scheduler" </> "lr_scheduler.pt" := PickleFile 3%nat]>
         fresh_scheduler_dirs
  /\ 0 <= get_global_rank data_peer_1
  /\ save_lr_scheduler data_peer_1 ckpt w = (Ok tt, w).
Proof.
  intros w.
  assert (0 <= get_global_rank solo) as H0 by (simpl; lia).
  assert (0 <= get_global_rank data_peer_1) as H1 by (simpl; lia).
  assert (make_dirs [] (ckpt </> "lr_scheduler") (w_fs w)
          = (Ok tt, fresh_scheduler_dirs)) as Hmk by (vm_compute; reflexivity).
  pose proof (lr_scheduler_singleton solo ckpt w H0) as (_ & Hsave & _).
  pose proof (lr_scheduler_singleton data_peer_1 ckpt w H1) as (Hskip & _ & _).
  destruct (Hsave eq_refl fresh_scheduler_dirs Hmk) as (_ & Hok).
  destruct (Hok ltac:(vm_compute; reflexivity)) as (Hres & Hfs).
  split_and!; [exact H0|exact Hres|exact Hfs|exact H1|].
  apply Hskip. simpl. lia.
Defined.

Lemma load_optimizer_not_found_witness :
  let saved := save_optimizer solo ckpt (process ∅ (zero_adam 7) 0) in
  let w := process (w_fs saved.2) (zero_adam 0) 0 in
  (make_dirs [] (ckpt </> "optimizer") (w_fs w)).1 = Ok tt
  /\ checkpoint_of_run true 1 1 1 ckpt (w_fs w)
  /\ dp_world_size data_peer_0 <> 1
  /\ (load_optimizer data_peer_0 ckpt None w).1 = Raise FileNotFoundError.
Proof.
  intros saved w.
  assert ((make_dirs [] (ckpt </> "optimizer") (w_fs w)).1 = Ok tt) as Hdir
    by (vm_compute; reflexivity).
  assert (checkpoint_of_run true 1 1 1 ckpt (w_fs w)) as Hrun.
  { apply (save_optimizer_keeps_checkpoint_of_run solo ckpt (process ∅ (zero_adam 7) 0)).
    intros name [n Hn]. unfold process in Hn. cbn [w_fs] in Hn.
    by rewrite lookup_empty in Hn. }
  assert (dp_world_size data_peer_0 <> 1) as Hdp by (simpl; lia).
  split_and!; [exact Hdir|exact Hrun|exact Hdp|].
  apply (load_optimizer_not_found data_peer_0 ckpt None w Hdir)
    with (ppw := 1) (dpw := 1) (tpw := 1).
  - exact Hrun.
  - right. left. exact Hdp.
Defined.

Lemma save_skip_creates_folder_scheduler_skip_does_not_witness :
  let w := process ∅ (adam 7) 3 in
  wf_context data_peer_1
  /\ inherit_from (w_optimizer w) ZeroDistributedOptimizer = false
  /\ dp_rank data_peer_1 > 0
  /\ make_dirs [] (ckpt </> "optimizer") (w_fs w) = (Ok tt, fresh_optimizer_dirs)
  /\ get_global_rank data_peer_1 > 0
  /\ save_optimizer data_peer_1 ckpt w
     = (Ok tt, mkWorld fresh_optimizer_dirs (adam 7) (mkLRScheduler 3%nat)
                       [EMkdir (ckpt </> "optimizer")])
  /\ fresh_optimizer_dirs !! (ckpt </> "optimizer") = Some Directory
  /\ w_fs w !! (ckpt </> "optimizer") = None
  /\ save_lr_scheduler data_peer_1 ckpt w = (Ok tt, w).
Proof.
  intros w.
  assert (wf_context data_peer_1) as Hwf by apply wf_context_samples.
  assert (inherit_from (w_optimizer w) ZeroDistributedOptimizer = false)
    as Hz by reflexivity.
  assert (dp_rank data_peer_1 > 0) as Hdp by (simpl; lia).
  assert (make_dirs [] (ckpt </> "optimizer") (w_fs w)
          = (Ok tt, fresh_optimizer_dirs)) as Hmk by (vm_compute; reflexivity).
  assert (get_global_rank data_peer_1 > 0) as Hg by (simpl; lia).
  pose proof (save_skip_creates_folder_scheduler_skip_does_not data_peer_1 ckpt w)
    as (_ & Hskip & Hsched).
  destruct (Hskip fresh_optimizer_dirs Hwf Hz Hdp Hmk) as (Hres & Hdir & _).
  split_and!; try assumption; [reflexivity|by apply Hsched].
Defined.

Lemma load_failure_leaves_state_untouched_witness :
  let w := process fresh_optimizer_dirs (adam 7) 3 in
  let loaded := load_optimizer solo ckpt None w in
  (forall s, w_fs w !! (ckpt </> "optimizer" </> optimizer_filename solo false)
             <> Some (PickleFile s))
  /\ loaded.1 = Raise FileNotFoundError
  /\ w_optimizer loaded.2 = adam 7
  /\ w_log loaded.2
     = [ETorchLoad (ckpt </> "optimizer" </> "optimizer_pp-0-of-1_tp-0-of-1.pt")
                   (Some "cpu")].
Proof.
  intros w loaded.
  assert (forall s, w_fs w !! (ckpt </> "optimizer" </> optimizer_filename solo false)
                    <> Some (PickleFile s)) as Hno
    by (intros s; vm_compute; discriminate).
  assert (loaded.1 = Raise FileNotFoundError) as Hraise by (vm_compute; reflexivity).
  pose proof (load_failure_leaves_state_untouched solo ckpt None w)
    as (Hfail & Hsame & _).
  destruct (Hfail Hno) as [e He].
  destruct (Hsame FileNotFoundError Hraise) as (Hopt & _ & Hlog).
  split_and!; [exact Hno|exact Hraise|exact Hopt|exact Hlog].
Defined.

(** ** More on the naming scheme *)

Lemma no_slash_app (s t : string) : no_slash (s +:+ t) = no_slash s && no_slash t.
Proof.
  induction s as [|c s IH]; simpl; [done|].
  rewrite IH. by destruct (negb _).
Qed.

Lemma all_digits_no_slash (d : string) : all_digits d = true -> no_slash d = true.
Proof.
  induction d as [|c d IH]; simpl; [done|].
  intros [Hc Hd]%andb_prop. rewrite (IH Hd), andb_true_r.
  destruct (decide (c = "/"%char)) as [->|Hne].
  - vm_compute in Hc. discriminate Hc.
  - by rewrite bool_decide_eq_false_2.
Qed.

Lemma fmt_no_slash (n : Z) : no_slash (fmt n) = true.
Proof.
  destruct (fmt_shape n) as (d & Hd & _ & ->).
  case_bool_decide; simpl; by apply all_digits_no_slash.
Qed.

(** X1: A shard name is one path component, whatever the coordinates, so the
    shard sits directly inside [root/optimizer]; the same goes for the
    scheduler file. *)
Theorem shard_name_is_one_component (pc : ParallelContext) (is_zero : bool) :
  no_slash (optimizer_filename pc is_zero) = true
  /\ optimizer_filename pc is_zero <> ""
  /\ no_slash lr_scheduler_filename = true.
Proof.
  split_and!; [|by destruct is_zero|reflexivity].
  unfold optimizer_filename. destruct is_zero;
    rewrite !no_slash_app, !fmt_no_slash; reflexivity.
Qed.

(** X2: In SHARDED mode two processes name the same file exactly when they
    agree on all six numbers the name embeds. *)
Theorem optimizer_filename_sharded_eq_iff (c1 c2 : ParallelContext) :
  optimizer_filename c1 true = optimizer_filename c2 true
  <-> (pp_rank c1 = pp_rank c2 /\ pp_world_size c1 = pp_world_size c2)
      /\ (dp_rank c1 = dp_rank c2 /\ dp_world_size c1 = dp_world_size c2)
      /\ (tp_rank c1 = tp_rank c2 /\ tp_world_size c1 = tp_world_size c2).
Proof.
  split; [apply optimizer_filename_sharded_inj|].
  intros ((Ha & Hb) & (Hc & Hd) & (He & Hf)).
  unfold optimizer_filename, get_local_rank, get_world_size.
  by rewrite Ha, Hb, Hc, Hd, He, Hf.
Qed.

(** X3: In REPLICATED mode they name the same file exactly when they agree on
    the pipeline and the data coordinates. *)
Theorem optimizer_filename_replicated_eq_iff (c1 c2 : ParallelContext) :
  optimizer_filename c1 false = optimizer_filename c2 false
  <-> (pp_rank c1 = pp_rank c2 /\ pp_world_size c1 = pp_world_size c2)
      /\ (dp_rank c1 = dp_rank c2 /\ dp_world_size c1 = dp_world_size c2).
Proof.
  split; [apply optimizer_filename_replicated_inj|].
  intros ((Ha & Hb) & (Hc & Hd)).
  by apply optimizer_filename_replicated_ignores_tensor.
Qed.

(** A SHARDED name is never a REPLICATED name. *)
Lemma optimizer_filename_modes_differ (c1 c2 : ParallelContext) :
  optimizer_filename c1 true <> optimizer_filename c2 false.
Proof.
  unfold optimizer_filename, get_local_rank, get_world_size. intros E.
  apply (inj (String.append _)) in E. apply (inj (String.append _)) in E.
  strip_fmt E.
  apply fmt_app_inj in E as [_ E]; [|reflexivity|reflexivity].
  discriminate E.
Qed.

(** ** What the saves leave alone *)

Section Frames.
Context {StateDict : Type}.
Implicit Types (w : World StateDict) (fs : gmap Path (Node StateDict)).
Implicit Types (p q root : Path) (pc : ParallelContext) (n : Node StateDict).

Lemma make_dirs_keeps (walked todo : Path) fs q n :
  fs !! q = Some n -> (make_dirs walked todo fs).2 !! q = Some n.
Proof.
  intros Hq. destruct (make_dirs_frame walked todo fs q) as [->|(Hnone & _)];
    congruence.
Qed.

Lemma mkdir_keeps p w q n :
  w_fs w !! q = Some n -> w_fs (mkdir p w).2 !! q = Some n.
Proof. rewrite mkdir_run. apply make_dirs_keeps. Qed.

Lemma mkdir_same_objects p w : same_objects w (mkdir p w).2.
Proof. by rewrite mkdir_run. Qed.

Lemma write_file_keeps p n w q :
  q <> p -> w_fs (write_file p n w).2 !! q = w_fs w !! q.
Proof.
  intros Hne. destruct (write_file_fs p n w) as [-> | ->]; [done|].
  by rewrite lookup_insert_ne.
Qed.

Lemma write_file_same_objects p n w : same_objects w (write_file p n w).2.
Proof.
  rewrite write_file_run. by repeat destruct (is_directory _ _).
Qed.

(** Entries that are there before [save_optimizer] and are neither its
    shard nor the manifest are there afterwards, however the call ends. *)
Lemma save_optimizer_keeps_entries pc root w q n :
  w_fs w !! q = Some n ->
  q <> root </> "optimizer"
         </> optimizer_filename pc (inherit_from (w_optimizer w) ZeroDistributedOptimizer) ->
  q <> root </> "optimizer" </> "optimizer_config.json" ->
  w_fs (save_optimizer pc root w).2 !! q = Some n.
Proof.
  intros Hq Hshard Hman. rewrite save_optimizer_run. cbv zeta.
  pose proof (mkdir_keeps (root </> "optimizer") w q n Hq) as Ha.
  destruct (mkdir _ w) as [[[]|e] wa]; [|done]. cbn [snd] in Ha.
  assert (forall r wb,
            (if bool_decide (get_world_size pc GLOBAL = 0)
             then json_dump [("type", class_name (w_optimizer w))]
                    (root </> "optimizer" </> "optimizer_config.json") wa
             else (Ok tt, wa)) = (r, wb) ->
            w_fs wb !! q = Some n) as Hb.
  { intros r wb. destruct (bool_decide _).
    - intros E. apply (f_equal (fun r => w_fs r.2)) in E. simpl in E.
      rewrite <-E, json_dump_run, write_file_keeps by done. done.
    - by intros [= _ <-]. }
  destruct (if bool_decide _ then _ else _) as [[[]|e] wb];
    specialize (Hb _ _ eq_refl); [|done].
  destruct (negb _ && _); [done|].
  by rewrite torch_save_run, write_file_keeps.
Qed.

Lemma same_objects_trans w1 w2 w3 :
  same_objects w1 w2 -> same_objects w2 w3 -> same_objects w1 w3.
Proof. intros [? ?] [? ?]. split; congruence. Qed.

Lemma torch_save_same_objects (s : StateDict) p w :
  same_objects w (torch_save s p w).2.
Proof.
  rewrite torch_save_run.
  apply (same_objects_trans _ (log_event (ETorchSave p s) w)); [done|].
  apply write_file_same_objects.
Qed.

Lemma json_dump_same_objects (j : Json) p w :
  same_objects w (json_dump j p w).2.
Proof.
  rewrite json_dump_run.
  apply (same_objects_trans _ (log_event (EJsonDump p j) w)); [done|].
  apply write_file_same_objects.
Qed.

Lemma save_optimizer_same_objects pc root w :
  same_objects w (save_optimizer pc root w).2.
Proof.
  rewrite save_optimizer_run. cbv zeta.
  pose proof (mkdir_same_objects (root </> "optimizer") w) as Ha.
  destruct (mkdir _ w) as [[[]|e] wa]; [|done]. cbn [snd] in Ha.
  assert (forall r wb,
            (if bool_decide (get_world_size pc GLOBAL = 0)
             then json_dump [("type", class_name (w_optimizer w))]
                    (root </> "optimizer" </> "optimizer_config.json") wa
             else (Ok tt, wa)) = (r, wb) ->
            same_objects w wb) as Hb.
  { intros r wb. destruct (bool_decide _).
    - intros E. apply (f_equal snd) in E. simpl in E. subst wb.
      apply (same_objects_trans _ wa); [done|apply json_dump_same_objects].
    - by intros [= _ <-]. }
  destruct (if bool_decide _ then _ else _) as [[[]|e] wb];
    specialize (Hb _ _ eq_refl); [|done].
  destruct (negb _ && _); [done|].
  apply (same_objects_trans _ wb); [done|apply torch_save_same_objects].
Qed.

Lemma save_lr_scheduler_keeps_entries pc root w q n :
  w_fs w !! q = Some n ->
  q <> root </> "lr_scheduler" </> lr_scheduler_filename ->
  w_fs (save_lr_scheduler pc root w).2 !! q = Some n.
Proof.
  intros Hq Hfile. rewrite save_lr_scheduler_run. cbv zeta.
  destruct (bool_decide _); [done|].
  pose proof (mkdir_keeps (root </> "lr_scheduler") w q n Hq) as Ha.
  destruct (mkdir _ w) as [[[]|e] wa]; [|done]. cbn [snd] in Ha.
  by rewrite torch_save_run, write_file_keeps.
Qed.

Lemma save_lr_scheduler_same_objects pc root w :
  same_objects w (save_lr_scheduler pc root w).2.
Proof.
  rewrite save_lr_scheduler_run. cbv zeta.
  destruct (bool_decide _); [done|].
  pose proof (mkdir_same_objects (root </> "lr_scheduler") w) as Ha.
  destruct (mkdir _ w) as [[[]|e] wa]; [|done]. cbn [snd] in Ha.
  apply (same_objects_trans _ wa); [done|apply torch_save_same_objects].
Qed.

End Frames.

(** ** Saves and loads together *)

Section Composition.
Context {StateDict : Type}.
Implicit Types (w : World StateDict) (fs : gmap Path (Node StateDict)).
Implicit Types (p q root : Path) (pc : ParallelContext) (n : Node StateDict).
Implicit Types (loc : option string).

(** X5: [save_optimizer] changes neither object and no entry of the
    filesystem that was there, except at its own shard path and at the
    manifest path; this holds however the call ends. *)
Theorem save_optimizer_touches_only_its_files pc root w :
  let sharded := inherit_from (w_optimizer w) ZeroDistributedOptimizer in
  let after := (save_optimizer pc root w).2 in
  w_optimizer after = w_optimizer w
  /\ w_lr_scheduler after = w_lr_scheduler w
  /\ forall q n,
       w_fs w !! q = Some n ->
       q <> root </> "optimizer" </> optimizer_filename pc sharded ->
       q <> root </> "optimizer" </> "optimizer_config.json" ->
       w_fs after !! q = Some n.
Proof.
  intros sharded after.
  destruct (save_optimizer_same_objects pc root w) as [Ho Hs].
  split_and!; [exact Ho|exact Hs|].
  intros q n. apply save_optimizer_keeps_entries.
Qed.

(** X6: [save_lr_scheduler] changes neither object and no entry that was
    there, except at [root/lr_scheduler/lr_scheduler.pt]. *)
Theorem save_lr_scheduler_touches_only_its_file pc root w :
  let after := (save_lr_scheduler pc root w).2 in
  w_optimizer after = w_optimizer w
  /\ w_lr_scheduler after = w_lr_scheduler w
  /\ forall q n,
       w_fs w !! q = Some n ->
       q <> root </> "lr_scheduler" </> "lr_scheduler.pt" ->
       w_fs after !! q = Some n.
Proof.
  intros after.
  destruct (save_lr_scheduler_same_objects pc root w) as [Ho Hs].
  split_and!; [exact Ho|exact Hs|].
  intros q n. apply save_lr_scheduler_keeps_entries.
Qed.

(** X7: The loads write nothing: [load_optimizer] leaves the filesystem, the
    scheduler and the optimizer's class and wrappers as they were, and
    [load_lr_scheduler] leaves the filesystem and the optimizer as they
    were, whether they return or raise. *)
Theorem loads_write_nothing pc root loc w :
  let after_opt := (load_optimizer pc root loc w).2 in
  let after_sched := (load_lr_scheduler root w).2 in
  (w_fs after_opt = w_fs w
   /\ w_lr_scheduler after_opt = w_lr_scheduler w
   /\ class_name (w_optimizer after_opt) = class_name (w_optimizer w)
   /\ forall cls, inherit_from (w_optimizer after_opt) cls
                  = inherit_from (w_optimizer w) cls)
  /\ (w_fs after_sched = w_fs w /\ w_optimizer after_sched = w_optimizer w).
Proof.
  intros after_opt after_sched. subst after_opt after_sched.
  rewrite load_optimizer_run, load_lr_scheduler_run. cbv zeta.
  split.
  - by destruct (w_fs w !! _) as [[]|].
  - by destruct (w_fs w !! _) as [[]|].
Qed.

(** *** The scheduler file *)

Lemma save_lr_scheduler_leaves_file pc root w w1 :
  get_global_rank pc <= 0 ->
  save_lr_scheduler pc root w = (Ok tt, w1) ->
  w_fs w1 !! (root </> "lr_scheduler" </> lr_scheduler_filename)
  = Some (PickleFile (scheduler_state (w_lr_scheduler w))).
Proof.
  intros Hrank. rewrite save_lr_scheduler_run. cbv zeta.
  rewrite bool_decide_eq_false_2 by lia.
  destruct (mkdir _ w) as [[[]|e] wa]; [|done].
  rewrite torch_save_run, write_file_run.
  repeat destruct (is_directory _ _); try done.
  intros [= <-]. simpl. apply lookup_insert_eq.
Qed.

(** X8: What global rank 0 saved of the scheduler is what any process loads:
    after a successful [save_lr_scheduler] on rank 0, [load_lr_scheduler]
    on the filesystem it left returns normally and installs the saved
    state. *)
Theorem lr_scheduler_round_trip pc root w w1 w2 :
  get_global_rank pc = 0 ->
  save_lr_scheduler pc root w = (Ok tt, w1) ->
  w_fs w2 = w_fs w1 ->
  let loaded := load_lr_scheduler root w2 in
  loaded.1 = Ok tt
  /\ scheduler_state (w_lr_scheduler loaded.2) = scheduler_state (w_lr_scheduler w)
  /\ w_log loaded.2
     = w_log w2 ++ [ETorchLoad (root </> "lr_scheduler" </> "lr_scheduler.pt") None;
                    ESchedulerLoadStateDict (scheduler_state (w_lr_scheduler w))].
Proof.
  intros Hrank Hsave Hfs loaded. subst loaded.
  pose proof (save_lr_scheduler_leaves_file pc root w w1 ltac:(lia) Hsave) as Hfile.
  rewrite load_lr_scheduler_run. cbv zeta. rewrite Hfs, Hfile. done.
Qed.

(** *** Several writers *)

Lemma shard_paths_differ root (n1 n2 : string) :
  n1 <> n2 -> root </> "optimizer" </> n1 <> root </> "optimizer" </> n2.
Proof. intros Hne E. by apply path_div_inj in E as [_ ?]. Qed.

(** X9: P4 on the filesystem: two SHARDED processes at different (pp, dp, tp)
    positions save one after the other into the same root; the later save
    leaves the earlier shard alone, and each process then loads the state
    it saved. *)
Theorem sharded_writers_keep_their_shards pc1 pc2 root loc w1 w1' w2 w2' wl1 wl2 :
  inherit_from (w_optimizer w1) ZeroDistributedOptimizer = true ->
  inherit_from (w_optimizer w2) ZeroDistributedOptimizer = true ->
  (pp_rank pc1, dp_rank pc1, tp_rank pc1) <> (pp_rank pc2, dp_rank pc2, tp_rank pc2) ->
  save_optimizer pc1 root w1 = (Ok tt, w1') ->
  w_fs w2 = w_fs w1' ->
  save_optimizer pc2 root w2 = (Ok tt, w2') ->
  w_fs wl1 = w_fs w2' ->
  inherit_from (w_optimizer wl1) ZeroDistributedOptimizer = true ->
  w_fs wl2 = w_fs w2' ->
  inherit_from (w_optimizer wl2) ZeroDistributedOptimizer = true ->
  let loaded1 := load_optimizer pc1 root loc wl1 in
  let loaded2 := load_optimizer pc2 root loc wl2 in
  (loaded1.1 = Ok tt
   /\ state_dict (w_optimizer loaded1.2) = state_dict (w_optimizer w1))
  /\ (loaded2.1 = Ok tt
      /\ state_dict (w_optimizer loaded2.2) = state_dict (w_optimizer w2)).
Proof.
  intros Hz1 Hz2 Hpos Hs1 Hfs2 Hs2 Hl1 Hzl1 Hl2 Hzl2 loaded1 loaded2.
  destruct (save_optimizer_leaves_shard pc1 root w1 w1') as [Hshard1 _];
    [by rewrite Hz1|done|].
  destruct (save_optimizer_leaves_shard pc2 root w2 w2') as [Hshard2 _];
    [by rewrite Hz2|done|].
  rewrite Hz1 in Hshard1. rewrite Hz2 in Hshard2.
  assert (w_fs w2' !! (root </> "optimizer" </> optimizer_filename pc1 true)
          = Some (PickleFile (state_dict (w_optimizer w1)))) as Hkept.
  { replace w2' with (save_optimizer pc2 root w2).2 by (by rewrite Hs2).
    apply save_optimizer_keeps_entries.
    - by rewrite Hfs2.
    - rewrite Hz2. apply shard_paths_differ.
      by apply sharded_names_pairwise_distinct.
    - apply shard_paths_differ, optimizer_filename_not_manifest. }
  subst loaded1 loaded2. rewrite !load_optimizer_run. cbv zeta.
  rewrite Hzl1, Hzl2, Hl1, Hl2, Hkept, Hshard2. done.
Qed.

(** *** A whole checkpoint *)

(** X10: The two saves of one process do not disturb each other: whichever of
    [save_optimizer] and [save_lr_scheduler] runs first, after both have
    returned the two loads give back the optimizer state and the scheduler
    state that were saved. *)
Theorem checkpoint_round_trip_either_order pc root loc w wa wb wl :
  owns_write (inherit_from (w_optimizer w) ZeroDistributedOptimizer) pc = true ->
  get_global_rank pc = 0 ->
  (save_optimizer pc root w = (Ok tt, wa) /\ save_lr_scheduler pc root wa = (Ok tt, wb))
  \/ (save_lr_scheduler pc root w = (Ok tt, wa) /\ save_optimizer pc root wa = (Ok tt, wb)) ->
  w_fs wl = w_fs wb ->
  inherit_from (w_optimizer wl) ZeroDistributedOptimizer
  = inherit_from (w_optimizer w) ZeroDistributedOptimizer ->
  let after_opt := load_optimizer pc root loc wl in
  let after_both := load_lr_scheduler root after_opt.2 in
  after_opt.1 = Ok tt /\ after_both.1 = Ok tt
  /\ state_dict (w_optimizer after_both.2) = state_dict (w_optimizer w)
  /\ scheduler_state (w_lr_scheduler after_both.2) = scheduler_state (w_lr_scheduler w).
Proof.
  intros Hown Hrank Horder Hfs Hmode after_opt after_both.
  set (shard := root </> "optimizer"
                  </> optimizer_filename pc
                        (inherit_from (w_optimizer w) ZeroDistributedOptimizer)).
  set (file := root </> "lr_scheduler" </> lr_scheduler_filename).
  assert (shard <> file) as Hne.
  { intros E. apply path_div_inj in E as [E _]. by apply path_div_inj in E as [_ ?]. }
  assert (w_fs wb !! shard = Some (PickleFile (state_dict (w_optimizer w)))
          /\ w_fs wb !! file = Some (PickleFile (scheduler_state (w_lr_scheduler w))))
    as [Hshard Hfile].
  { destruct Horder as [[Ho Hs]|[Hs Ho]].
    - destruct (save_optimizer_leaves_shard pc root w wa Hown Ho) as [Hshard _].
      destruct (save_optimizer_same_objects pc root w) as [_ Hsched].
      rewrite Ho in Hsched. cbn [snd] in Hsched.
      pose proof (save_lr_scheduler_leaves_file pc root wa wb ltac:(lia) Hs) as Hfile.
      rewrite Hsched in Hfile. split; [|exact Hfile].
      replace wb with (save_lr_scheduler pc root wa).2 by (by rewrite Hs).
      by apply save_lr_scheduler_keeps_entries.
    - pose proof (save_lr_scheduler_leaves_file pc root w wa ltac:(lia) Hs) as Hfile.
      destruct (save_lr_scheduler_same_objects pc root w) as [Hopt _].
      rewrite Hs in Hopt. cbn [snd] in Hopt.
      rewrite <-Hopt in Hown.
      destruct (save_optimizer_leaves_shard pc root wa wb Hown Ho) as [Hshard _].
      rewrite Hopt in Hshard. split; [exact Hshard|].
      replace wb with (save_optimizer pc root wa).2 by (by rewrite Ho).
      apply save_optimizer_keeps_entries; [done|by rewrite Hopt|].
      intros E. apply path_div_inj in E as [E _].
      by apply path_div_inj in E as [_ ?]. }
  subst after_both after_opt.
  rewrite load_optimizer_run. cbv zeta. rewrite Hmode, Hfs. fold shard.
  rewrite Hshard. cbn [fst snd].
  rewrite load_lr_scheduler_run. cbv zeta. cbn [w_fs]. fold file.
  rewrite Hfile. done.
Qed.

(** *** Which names a save can add *)

Lemma write_file_names (p : Path) n w q :
  is_Some (w_fs (write_file p n w).2 !! q) -> q = p \/ is_Some (w_fs w !! q).
Proof.
  destruct (write_file_fs p n w) as [-> | ->]; [by right|].
  destruct (decide (p = q)) as [->|Hne]; [by left|].
  rewrite lookup_insert_ne by done. by right.
Qed.

(** A name found in the optimizer folder after [save_optimizer] was there
    before, or is the manifest, or is the caller's shard name, and then
    the caller was not told to skip. *)
Lemma save_optimizer_new_names pc root w (name : string) :
  let sharded := inherit_from (w_optimizer w) ZeroDistributedOptimizer in
  is_Some (w_fs (save_optimizer pc root w).2 !! (root </> "optimizer" </> name)) ->
  is_Some (w_fs w !! (root </> "optimizer" </> name))
  \/ name = "optimizer_config.json"
  \/ (name = optimizer_filename pc sharded
      /\ negb sharded && bool_decide (get_local_rank pc DATA > 0) = false).
Proof.
  intros sharded. rewrite save_optimizer_run. cbv zeta. fold sharded.
  rewrite mkdir_run.
  assert (forall fs1, fs1 = (make_dirs [] (root </> "optimizer") (w_fs w)).2 ->
            is_Some (fs1 !! (root </> "optimizer" </> name)) ->
            is_Some (w_fs w !! (root </> "optimizer" </> name))) as Hmk.
  { intros fs1 -> Hsome.
    destruct (make_dirs_frame [] (root </> "optimizer") (w_fs w)
                (root </> "optimizer" </> name)) as [E|(_ & _ & k & E)].
    - by rewrite <-E.
    - apply (f_equal length) in E. simpl in E.
      unfold path_div in E at 1. rewrite length_app, length_take in E.
      simpl in E. lia. }
  destruct (make_dirs [] (root </> "optimizer") (w_fs w)) as [[[]|e] fs1];
    cbn [fst snd] in *; [|by left; apply (Hmk fs1)].
  set (w1 := mkWorld fs1 _ _ _).
  assert (forall r wb,
            (if bool_decide (get_world_size pc GLOBAL = 0)
             then json_dump [("type", class_name (w_optimizer w))]
                    (root </> "optimizer" </> "optimizer_config.json") w1
             else (Ok tt, w1)) = (r, wb) ->
            is_Some (w_fs wb !! (root </> "optimizer" </> name)) ->
            is_Some (fs1 !! (root </> "optimizer" </> name))
            \/ name = "optimizer_config.json") as Hb.
  { intros r wb. destruct (bool_decide _).
    - intros E. apply (f_equal (fun r => w_fs r.2)) in E. simpl in E.
      rewrite <-E, json_dump_run. intros [Hq|Hq]%write_file_names.
      + right. by apply path_div_inj in Hq as [_ ?].
      + by left.
    - intros [= _ <-]. by left. }
  destruct (if bool_decide _ then _ else _) as [[[]|e] wb];
    specialize (Hb _ _ eq_refl); cbn [snd].
  - destruct (negb sharded && _) eqn:Hskip.
    + intros [?|?]%Hb; [left; by apply (Hmk fs1)|by right; left].
    + rewrite torch_save_run. intros [Hq|Hq]%write_file_names.
      * right; right. by apply path_div_inj in Hq as [_ ?].
      * apply Hb in Hq as [?|?]; [left; by apply (Hmk fs1)|by right; left].
  - intros [?|?]%Hb; [left; by apply (Hmk fs1)|by right; left].
Qed.

(** X11: In REPLICATED mode the shards in the folder are those of data rank 0:
    saving keeps it so, and therefore a replica of another data rank, which
    looks for a shard under its own data rank, is answered
    [FileNotFoundError], provided no file stands on the way to
    [root/optimizer]. *)
Theorem replicated_replica_finds_no_shard pc root loc w :
  inherit_from (w_optimizer w) ZeroDistributedOptimizer = false ->
  checkpoint_of_owners root (w_fs w) ->
  (0 <= dp_rank pc ->
   checkpoint_of_owners root (w_fs (save_optimizer pc root w).2))
  /\ (dp_rank pc <> 0 ->
      (make_dirs [] (root </> "optimizer") (w_fs w)).1 = Ok tt ->
      (load_optimizer pc root loc w).1 = Raise FileNotFoundError).
Proof.
  intros Hz Hfs. split.
  - intros Hdp name Hsome.
    apply save_optimizer_new_names in Hsome as [Hold|[Hman|[Hname Hskip]]].
    + by apply Hfs.
    + by left.
    + right. exists pc. rewrite Hz in Hname, Hskip. split; [|done].
      simpl in Hskip. apply bool_decide_eq_false in Hskip. lia.
  - intros Hdp Hdir. rewrite load_optimizer_run. cbv zeta. rewrite Hz.
    destruct (w_fs w !! _) as [n|] eqn:Hn.
    + exfalso.
      destruct (Hfs (optimizer_filename pc false)) as [Hman|(pc' & Hdp' & E)].
      * by rewrite Hn.
      * by apply optimizer_filename_not_manifest in Hman.
      * apply optimizer_filename_replicated_inj in E as (_ & (E & _)). congruence.
    + cbn [fst]. f_equal.
      apply (open_error_creatable [] (root </> "optimizer")
               (optimizer_filename pc false) (w_fs w) Hdir).
Qed.

(** X4: A folder written in one mode holds no name of the other mode, so
    loading from it in the other mode raises [FileNotFoundError] whatever
    the coordinates, provided no file stands on the way to
    [root/optimizer]. *)
Theorem load_in_other_mode_not_found pc root loc w ppw dpw tpw :
  let sharded := inherit_from (w_optimizer w) ZeroDistributedOptimizer in
  (make_dirs [] (root </> "optimizer") (w_fs w)).1 = Ok tt ->
  checkpoint_of_run (negb sharded) ppw dpw tpw root (w_fs w) ->
  (load_optimizer pc root loc w).1 = Raise FileNotFoundError.
Proof.
  intros sharded Hdir Hrun. rewrite load_optimizer_run. cbv zeta. fold sharded.
  destruct (w_fs w !! _) as [n|] eqn:Hn.
  - exfalso.
    destruct (Hrun (optimizer_filename pc sharded)) as [Hman|(pc' & _ & _ & _ & E)].
    + by rewrite Hn.
    + by apply optimizer_filename_not_manifest in Hman.
    + destruct sharded; simpl in E.
      * by apply optimizer_filename_modes_differ in E.
      * symmetry in E. by apply optimizer_filename_modes_differ in E.
  - cbn [fst]. f_equal.
    apply (open_error_creatable [] (root </> "optimizer")
             (optimizer_filename pc sharded) (w_fs w) Hdir).
Qed.

(** *** Saving again *)

(** An entry deeper than the path being created does not interfere with
    the creation. *)
Lemma make_dirs_insert_longer (walked todo : Path) fs q n :
  (length walked + length todo < length q)%nat ->
  make_dirs walked todo (<[q := n]> fs)
  = ((make_dirs walked todo fs).1, <[q := n]> (make_dirs walked todo fs).2).
Proof.
  revert walked fs. induction todo as [|name rest IH]; intros walked fs Hlen;
    [done|].
  assert (q <> walked </> name) as Hne.
  { intros ->. unfold path_div in Hlen. rewrite length_app in Hlen.
    simpl in Hlen. lia. }
  assert (length (walked </> name) + length rest < length q)%nat as Hlen'.
  { unfold path_div. rewrite length_app. simpl in *. lia. }
  simpl. rewrite lookup_insert_ne by done.
  destruct (fs !! (walked </> name)) as [[]|]; try done.
  - by apply IH.
  - rewrite insert_insert_ne by done. by apply IH.
Qed.

(** A successful save, taken apart. *)
Lemma save_optimizer_ok_inv pc root w w1 :
  wf_context pc ->
  save_optimizer pc root w = (Ok tt, w1) ->
  let sharded := inherit_from (w_optimizer w) ZeroDistributedOptimizer in
  let shard := root </> "optimizer" </> optimizer_filename pc sharded in
  exists fs1,
    make_dirs [] (root </> "optimizer") (w_fs w) = (Ok tt, fs1)
    /\ w_fs w1 = if owns_write sharded pc
                 then <[shard := PickleFile (state_dict (w_optimizer w))]> fs1
                 else fs1.
Proof.
  intros Hwf Hsave sharded shard.
  assert (0 <= dp_rank pc) as Hdp by (destruct Hwf as (_ & [? _] & _); done).
  destruct (make_dirs [] (root </> "optimizer") (w_fs w)) as [[[]|e] fs1] eqn:Hmk.
  - exists fs1. split; [done|].
    rewrite (save_optimizer_run_wf pc root w fs1 Hwf Hmk) in Hsave.
    cbv zeta in Hsave. fold sharded shard in Hsave.
    rewrite (owns_write_spec sharded pc Hdp) in Hsave.
    destruct (owns_write sharded pc); simpl in Hsave.
    + rewrite torch_save_run, write_file_run in Hsave.
      repeat destruct (is_directory _ _); try done.
      by injection Hsave as <-.
    + by injection Hsave as <-.
  - rewrite save_optimizer_run in Hsave. cbv zeta in Hsave.
    rewrite mkdir_run, Hmk in Hsave. done.
Qed.

(** X12: Saving over an earlier successful save succeeds again, the folder and
    the shard being there is no obstacle, and the only thing it changes in
    the filesystem is the content of the caller's shard. *)
Theorem save_optimizer_again_overwrites pc root w w1 w2 :
  wf_context pc ->
  save_optimizer pc root w = (Ok tt, w1) ->
  w_fs w2 = w_fs w1 ->
  inherit_from (w_optimizer w2) ZeroDistributedOptimizer
  = inherit_from (w_optimizer w) ZeroDistributedOptimizer ->
  let sharded := inherit_from (w_optimizer w) ZeroDistributedOptimizer in
  let shard := root </> "optimizer" </> optimizer_filename pc sharded in
  let again := save_optimizer pc root w2 in
  again.1 = Ok tt
  /\ w_fs again.2
     = if owns_write sharded pc
       then <[shard := PickleFile (state_dict (w_optimizer w2))]> (w_fs w1)
       else w_fs w1.
Proof.
  intros Hwf Hsave Hfs Hmode sharded shard again.
  assert (0 <= dp_rank pc) as Hdp by (destruct Hwf as (_ & [? _] & _); done).
  destruct (save_optimizer_ok_inv pc root w w1 Hwf Hsave) as (fs1 & Hmk & Hw1).
  fold sharded shard in Hw1.
  pose proof (make_dirs_idempotent [] _ _ _ Hmk) as Hmk1.
  assert (make_dirs [] (root </> "optimizer") (w_fs w2) = (Ok tt, w_fs w1)) as Hmk2.
  { rewrite Hfs, Hw1. destruct (owns_write sharded pc); [|done].
    rewrite make_dirs_insert_longer, Hmk1; [done|].
    subst shard. unfold path_div. rewrite !length_app. simpl. lia. }
  subst again. rewrite (save_optimizer_run_wf pc root w2 (w_fs w1) Hwf Hmk2).
  cbv zeta. rewrite Hmode. fold sharded shard.
  rewrite (owns_write_spec sharded pc Hdp).
  destruct (owns_write sharded pc) eqn:Hown; simpl; [|done].
  rewrite torch_save_run, write_file_run. cbn [w_fs log_event].
  assert (is_directory (w_fs w1) shard = false) as ->.
  { unfold is_directory. rewrite Hw1, lookup_insert_eq.
    destruct shard eqn:E; [|done].
    by apply path_div_not_root in E. }
  subst shard. rewrite parent_path_div.
  pose proof (is_directory_created [] (root </> "optimizer") (w_fs w2) (w_fs w1)
                Hmk2 (path_div_not_root root "optimizer")) as Hd.
  simpl in Hd. by rewrite Hd.
Qed.

End Composition.

(** ** The sampler tests' bookkeeping *)

Local Abbreviation offset datasets k := (py_sum (Z.of_nat <$> take k datasets)).
Local Abbreviation count_in a b idxs :=
  (length (filter (fun idx => a <= idx /\ idx < b) idxs)).

Example count_batch_two_domains :
  start_indices [3%nat; 2%nat] = [0; 3] /\ end_indices [3%nat; 2%nat] = [3; 5]
  /\ count_batch [3%nat; 2%nat] 2 [0; 4; 1; 7] [10; 20] = Some [12; 21].
Proof. by vm_compute. Qed.

Example count_batch_empty_batch_indexes_nothing :
  count_batch [3%nat] 2 [] [0; 0] = Some [0; 0]
  /\ count_batch [3%nat] 2 [1] [0; 0] = None.
Proof. by vm_compute. Qed.

Example not_repeating_loop_samples :
  not_repeating_loop [[1; 2]; [3; 3]; [4]] 0 [] = Some (3, [1; 2; 3; 3; 4])
  /\ not_repeating_loop [[1; 2]; [3]; [2]] 0 [] = None.
Proof. by vm_compute. Qed.

Lemma foldl_add (a : Z) (l : list Z) : foldl Z.add a l = a + py_sum l.
Proof.
  unfold py_sum. revert a. induction l as [|x l IH]; intros a; simpl; [lia|].
  rewrite (IH (a + x)), (IH (0 + x)). lia.
Qed.

Lemma py_sum_cons (x : Z) (l : list Z) : py_sum (x :: l) = x + py_sum l.
Proof. unfold py_sum at 1. simpl. rewrite foldl_add. lia. Qed.

Lemma py_sum_app (l1 l2 : list Z) : py_sum (l1 ++ l2) = py_sum l1 + py_sum l2.
Proof.
  induction l1 as [|x l1 IH]; simpl; [done|].
  rewrite !py_sum_cons, IH. lia.
Qed.

Lemma py_sum_insert (l : list Z) (k : nat) (old c : Z) :
  l !! k = Some old -> py_sum (<[k := old + c]> l) = py_sum l + c.
Proof.
  revert k. induction l as [|x l IH]; intros [|k] Hk; simplify_eq/=.
  - rewrite !py_sum_cons. lia.
  - rewrite !py_sum_cons, (IH k Hk). lia.
Qed.

Lemma ones_of_domain_filter (starts stops : list Z) (d : nat) (lo hi : Z)
    (idxs : list Z) :
  starts !! d = Some lo -> stops !! d = Some hi ->
  ones_of_domain starts stops d idxs
  = Some ((fun _ => 1) <$> filter (fun idx => lo <= idx /\ idx < hi) idxs).
Proof.
  intros Hlo Hhi. induction idxs as [|idx rest IH]; [done|].
  cbn [ones_of_domain]. rewrite Hlo, Hhi, IH. cbn [mbind option_bind].
  rewrite filter_cons.
  destruct (bool_decide (idx >= lo)) eqn:E1; cbn [mbind option_bind].
  - apply bool_decide_eq_true in E1.
    destruct (bool_decide (idx < hi)) eqn:E2.
    + apply bool_decide_eq_true in E2. by rewrite decide_True by lia.
    + apply bool_decide_eq_false in E2. by rewrite decide_False by lia.
  - apply bool_decide_eq_false in E1. by rewrite decide_False by lia.
Qed.

Lemma num_samples_count (starts stops : list Z) (d : nat) (lo hi : Z)
    (idxs : list Z) :
  starts !! d = Some lo -> stops !! d = Some hi ->
  num_samples starts stops d idxs = Some (Z.of_nat (count_in lo hi idxs)).
Proof.
  intros Hlo Hhi. unfold num_samples.
  rewrite (ones_of_domain_filter starts stops d lo hi idxs Hlo Hhi).
  cbn [fmap option_fmap option_map]. f_equal.
  induction (filter _ idxs) as [|x l IH]; [done|].
  rewrite fmap_cons, py_sum_cons, IH. simpl. lia.
Qed.

(** Counting over an interval is counting over its two halves. *)
Lemma count_in_split (a b c : Z) (idxs : list Z) :
  a <= b -> b <= c ->
  (count_in a b idxs + count_in b c idxs = count_in a c idxs)%nat.
Proof.
  intros Hab Hbc. induction idxs as [|x idxs IH]; [done|].
  rewrite !filter_cons. repeat case_decide; simpl; lia.
Qed.

Lemma count_in_empty (a : Z) (idxs : list Z) : count_in a a idxs = 0%nat.
Proof.
  induction idxs as [|x idxs IH]; [done|].
  rewrite filter_cons. case_decide; [lia|done].
Qed.

Lemma count_in_all (a b : Z) (idxs : list Z) :
  (forall idx, idx ∈ idxs -> a <= idx < b) -> count_in a b idxs = length idxs.
Proof.
  induction idxs as [|x idxs IH]; intros Hall; [done|].
  rewrite filter_cons. rewrite decide_True by (apply Hall; left).
  simpl. f_equal. apply IH. intros idx Hin. apply Hall. by right.
Qed.

Lemma offset_succ (datasets : list nat) (k n : nat) :
  datasets !! k = Some n ->
  offset datasets (S k) = offset datasets k + Z.of_nat n.
Proof.
  intros Hk. rewrite (take_S_r _ _ _ Hk), fmap_app, py_sum_app.
  simpl. rewrite py_sum_cons. unfold py_sum. simpl. lia.
Qed.

Lemma start_indices_lookup (datasets : list nat) (k : nat) :
  (k < length datasets)%nat ->
  start_indices datasets !! k = Some (offset datasets k).
Proof.
  intros Hk. unfold start_indices.
  by rewrite list_lookup_fmap, lookup_seq_lt.
Qed.

Lemma end_indices_lookup (datasets : list nat) (k : nat) :
  (k < length datasets)%nat ->
  end_indices datasets !! k = Some (offset datasets (S k)).
Proof.
  intros Hk. unfold end_indices.
  rewrite list_lookup_fmap, lookup_seq_lt by done. simpl.
  by rewrite Nat.add_1_r.
Qed.

(** Domains [k .. k+m-1] in a row add, in all, the number of indices
    between the first index of domain [k] and the first of domain [k+m]. *)
Lemma count_domains_seq (datasets : list nat) (idxs : list Z) (m : nat) :
  forall (k : nat) (acc : list Z),
    (k + m <= length datasets)%nat -> (k + m <= length acc)%nat ->
    exists counted,
      count_domains datasets idxs (seq k m) acc = Some counted
      /\ length counted = length acc
      /\ offset datasets k <= offset datasets (k + m)
      /\ py_sum counted
         = py_sum acc
           + Z.of_nat (count_in (offset datasets k) (offset datasets (k + m)) idxs).
Proof.
  induction m as [|m IH]; intros k acc Hd Ha.
  - exists acc. rewrite Nat.add_0_r, count_in_empty. simpl.
    split_and!; (done || lia).
  - destruct (lookup_lt_is_Some_2 datasets k ltac:(lia)) as [n Hn].
    destruct (lookup_lt_is_Some_2 acc k ltac:(lia)) as [old Hold].
    pose proof (offset_succ datasets k n Hn) as Hsucc.
    cbn [seq count_domains]. unfold count_domain.
    rewrite (num_samples_count _ _ k (offset datasets k) (offset datasets (S k)))
      by (by rewrite ?start_indices_lookup, ?end_indices_lookup by lia).
    rewrite Hold. cbn [mbind option_bind].
    destruct (IH (S k)
                (<[k := old + Z.of_nat (count_in (offset datasets k)
                                          (offset datasets (S k)) idxs)]> acc))
      as (counted & -> & Hlen & Hmono & Hsum).
    { lia. } { rewrite length_insert. lia. }
    exists counted. rewrite length_insert in Hlen.
    rewrite (py_sum_insert acc k old _ Hold) in Hsum.
    replace (k + S m)%nat with (S k + m)%nat by lia.
    split_and!; [done|done|lia|].
    rewrite Hsum,
      <-(count_in_split (offset datasets k) (offset datasets (S k))
           (offset datasets (S k + m)) idxs) by lia.
    lia.
Qed.

(** X13: The per-domain counts a batch adds: with as many domains as datasets
    the loop goes through, every count stays in place, and in all the
    counts grow by the number of indices of the batch that are global
    indices, hence by the batch length when all of them are. *)
Theorem count_batch_counts_each_index_once (datasets : list nat) (idxs acc : list Z) :
  length acc = length datasets ->
  let total := py_sum (Z.of_nat <$> datasets) in
  exists counted,
    count_batch datasets (length datasets) idxs acc = Some counted
    /\ length counted = length acc
    /\ py_sum counted = py_sum acc + Z.of_nat (count_in 0 total idxs)
    /\ ((forall idx, idx ∈ idxs -> 0 <= idx < total) ->
        py_sum counted = py_sum acc + Z.of_nat (length idxs)).
Proof.
  intros Hlen total.
  destruct (count_domains_seq datasets idxs (length datasets) 0%nat acc)
    as (counted & Hrun & Hl & _ & Hsum); [lia|lia|].
  exists counted. simpl in Hsum. rewrite firstn_all in Hsum.
  change (py_sum []) with 0 in Hsum. fold total in Hsum.
  split_and!; [done|done|done|].
  intros Hall. by rewrite Hsum, (count_in_all 0 total idxs Hall).
Qed.

Lemma count_domains_app (datasets : list nat) (idxs : list Z) (d1 d2 : list nat)
    (acc : list Z) :
  count_domains datasets idxs (d1 ++ d2) acc
  = count_domains datasets idxs d1 acc ≫= count_domains datasets idxs d2.
Proof.
  revert acc. induction d1 as [|d d1 IH]; intros acc; simpl; [done|].
  destruct (count_domain datasets idxs acc d); simpl; [apply IH|done].
Qed.

Lemma count_domains_empty_batch (datasets : list nat) (domains : list nat)
    (acc : list Z) :
  (forall d, d ∈ domains -> (d < length acc)%nat) ->
  count_domains datasets [] domains acc = Some acc.
Proof.
  induction domains as [|d rest IH]; intros Hin; [done|].
  cbn [count_domains]. unfold count_domain, num_samples.
  cbn [ones_of_domain fmap option_fmap option_map mbind option_bind].
  destruct (lookup_lt_is_Some_2 acc d) as [old Hold]; [apply Hin; left|].
  rewrite Hold. cbn [mbind option_bind]. change (py_sum []) with 0.
  rewrite Z.add_0_r, (list_insert_id acc d old Hold).
  apply IH. intros d' Hd'. apply Hin. by right.
Qed.

(** X14: With more domain weights than datasets the loop runs into
    [start_indices[domain_idx]] past the end as soon as the batch has an
    element: an [IndexError].  On an empty batch the generator draws
    nothing, nothing is indexed, and the loop leaves the counts as they
    are. *)
Theorem count_batch_index_error (datasets : list nat) (n_domains : nat)
    (idxs acc : list Z) :
  (length datasets < n_domains)%nat ->
  (idxs <> [] -> count_batch datasets n_domains idxs acc = None)
  /\ (length acc = n_domains -> count_batch datasets n_domains [] acc = Some acc).
Proof.
  intros Hlt. split.
  - intros Hne. unfold count_batch.
    replace n_domains
      with (length datasets + S (n_domains - S (length datasets)))%nat by lia.
    rewrite seq_app, count_domains_app.
    destruct (count_domains datasets idxs (seq 0 (length datasets)) acc)
      as [counted|]; [|done].
    destruct idxs as [|idx rest]; [done|].
    cbn [mbind option_bind seq count_domains]. unfold count_domain, num_samples.
    cbn [ones_of_domain].
    assert (start_indices datasets !! (0 + length datasets)%nat = None) as ->; [|done].
    apply lookup_ge_None. unfold start_indices.
    rewrite length_fmap, length_seq. lia.
  - intros Hacc. apply count_domains_empty_batch.
    intros d Hd. apply elem_of_seq in Hd. lia.
Qed.

Lemma forallb_no_index_again (yielded idxs : list Z) :
  forallb (fun idx => negb (bool_decide (idx ∈ yielded))) idxs = true
  <-> no_index_again yielded idxs.
Proof.
  unfold no_index_again. induction idxs as [|x idxs IH]; cbn [forallb].
  - split; [|done]. intros _ idx Hin. by apply elem_of_nil in Hin.
  - rewrite andb_true_iff, IH, negb_true_iff, bool_decide_eq_false.
    split.
    + intros [Hx Hrest] idx [->|Hin]%elem_of_cons; auto.
    + intros Hall. split; [apply Hall; left|].
      intros idx Hin. apply Hall. by right.
Qed.

(** The loop from any state: it returns exactly when no batch holds an
    index yielded before it, and then it has counted the batches and
    collected their indices in order. *)
Lemma not_repeating_loop_spec (batches : list (list Z)) :
  forall (m : Z) (yielded : list Z) (r : Z * list Z),
    not_repeating_loop batches m yielded = Some r
    <-> r = (m + Z.of_nat (length batches), yielded ++ concat batches)
        /\ Forall (no_index_again yielded) batches
        /\ ForallOrdPairs no_index_again batches.
Proof.
  induction batches as [|idxs rest IH]; intros m yielded r.
  - cbn [not_repeating_loop length concat]. rewrite Z.add_0_r, app_nil_r.
    split.
    + intros [= <-]. split_and!; [done|constructor|constructor].
    + by intros (-> & _ & _).
  - cbn [not_repeating_loop length concat].
    destruct (forallb _ idxs) eqn:Hcheck.
    + apply forallb_no_index_again in Hcheck.
      rewrite IH. split.
      * intros (-> & Hy & Hp). split_and!.
        -- f_equal; [lia|by rewrite app_assoc].
        -- constructor; [done|].
           eapply Forall_impl; [exact Hy|].
           intros b Hb idx Hin Hyield. apply (Hb idx Hin).
           apply elem_of_app. by left.
        -- constructor; [|done].
           eapply Forall_impl; [exact Hy|].
           intros b Hb idx Hin Hidxs. apply (Hb idx Hin).
           apply elem_of_app. by right.
      * intros (-> & Hy & Hp).
        apply Forall_cons in Hy as [_ Hy].
        inversion Hp as [|? ? Hfirst Hrest]; subst.
        split_and!.
        -- f_equal; [lia|by rewrite app_assoc].
        -- apply Forall_forall. intros b Hb idx Hin [?|?]%elem_of_app.
           ++ rewrite Forall_forall in Hy. by apply (Hy b Hb idx Hin).
           ++ rewrite List.Forall_forall in Hfirst.
              apply (Hfirst b (proj1 (list_elem_of_In _ _) Hb) idx); done.
        -- done.
    + split; [done|]. intros (_ & Hy & _).
      apply Forall_cons in Hy as [Hy _].
      apply forallb_no_index_again in Hy. congruence.
Qed.

(** X15: The not-repeating test's loop, started as the test starts it,
    runs to the end exactly when no batch holds an index that an earlier
    batch held, and has then counted the batches and collected every index
    in order; otherwise it stops on its [AssertionError].  An index
    repeated inside one batch is not noticed. *)
Theorem not_repeating_loop_passes_iff_no_index_again (batches : list (list Z)) :
  (ForallOrdPairs no_index_again batches ->
   not_repeating_loop batches 0 []
   = Some (Z.of_nat (length batches), concat batches))
  /\ (~ ForallOrdPairs no_index_again batches ->
      not_repeating_loop batches 0 [] = None).
Proof.
  split.
  - intros Hp. apply not_repeating_loop_spec. split_and!; [done| |done].
    apply Forall_forall. intros b _ idx _. apply not_elem_of_nil.
  - intros Hn. destruct (not_repeating_loop batches 0 []) as [r|] eqn:E; [|done].
    apply not_repeating_loop_spec in E as (_ & _ & Hp). by destruct Hn.
Qed.

(** ** The further theorems at work on sample processes *)

Lemma optimizer_filename_sharded_eq_iff_witness :
  optimizer_filename data_peer_0 true <> optimizer_filename data_peer_1 true
  /\ optimizer_filename data_peer_1 true
     = optimizer_filename (mkContext 0 1 1 2 0 1 5 8) true.
Proof.
  split.
  - intros E.
    apply (proj1 (optimizer_filename_sharded_eq_iff data_peer_0 data_peer_1)) in E.
    destruct E as (_ & (E & _) & _). simpl in E. lia.
  - apply (proj2 (optimizer_filename_sharded_eq_iff data_peer_1
                    (mkContext 0 1 1 2 0 1 5 8))).
    simpl. repeat split; reflexivity.
Defined.

Lemma optimizer_filename_replicated_eq_iff_witness :
  optimizer_filename tensor_peer_0 false = optimizer_filename tensor_peer_1 false
  /\ optimizer_filename data_peer_0 false <> optimizer_filename data_peer_1 false.
Proof.
  split.
  - apply (proj2 (optimizer_filename_replicated_eq_iff tensor_peer_0 tensor_peer_1)).
    simpl. repeat split; reflexivity.
  - intros E.
    apply (proj1 (optimizer_filename_replicated_eq_iff data_peer_0 data_peer_1)) in E.
    destruct E as (_ & (E & _)). simpl in E. lia.
Defined.

Lemma save_optimizer_touches_only_its_files_witness :
  let w := process {[ ckpt </> "notes.json" := JsonFile [("step", "12")] ]} (adam 7) 3 in
  let after := (save_optimizer solo ckpt w).2 in
  w_fs w !! (ckpt </> "notes.json") = Some (JsonFile [("step", "12")])
  /\ ckpt </> "notes.json"
     <> ckpt </> "optimizer" </> optimizer_filename solo false
  /\ ckpt </> "notes.json" <> ckpt </> "optimizer" </> "optimizer_config.json"
  /\ w_fs after !! (ckpt </> "notes.json") = Some (JsonFile [("step", "12")])
  /\ w_optimizer after = adam 7.
Proof.
  intros w after.
  assert (w_fs w !! (ckpt </> "notes.json") = Some (JsonFile [("step", "12")]))
    as H1 by (vm_compute; reflexivity).
  assert (ckpt </> "notes.json"
          <> ckpt </> "optimizer" </> optimizer_filename solo false)
    as H2 by (vm_compute; discriminate).
  assert (ckpt </> "notes.json" <> ckpt </> "optimizer" </> "optimizer_config.json")
    as H3 by (vm_compute; discriminate).
  destruct (save_optimizer_touches_only_its_files solo ckpt w) as (Ho & _ & Hkeep).
  split_and!; [exact H1|exact H2|exact H3| |exact Ho].
  exact (Hkeep _ _ H1 H2 H3).
Defined.

Lemma save_lr_scheduler_touches_only_its_file_witness :
  let w := process {[ ckpt </> "notes.json" := JsonFile [("step", "12")] ]} (adam 7) 3 in
  let after := (save_lr_scheduler solo ckpt w).2 in
  w_fs w !! (ckpt </> "notes.json") = Some (JsonFile [("step", "12")])
  /\ ckpt </> "notes.json" <> ckpt </> "lr_scheduler" </> "lr_scheduler.pt"
  /\ w_fs after !! (ckpt </> "notes.json") = Some (JsonFile [("step", "12")]).
Proof.
  intros w after.
  assert (w_fs w !! (ckpt </> "notes.json") = Some (JsonFile [("step", "12")]))
    as H1 by (vm_compute; reflexivity).
  assert (ckpt </> "notes.json" <> ckpt </> "lr_scheduler" </> "lr_scheduler.pt")
    as H2 by (vm_compute; discriminate).
  destruct (save_lr_scheduler_touches_only_its_file solo ckpt w) as (_ & _ & Hkeep).
  split_and!; [exact H1|exact H2|].
  exact (Hkeep _ _ H1 H2).
Defined.

Lemma lr_scheduler_round_trip_witness :
  let w := process ∅ (adam 7) 3 in
  let w1 := (save_lr_scheduler solo ckpt w).2 in
  let w2 := process (w_fs w1) (adam 0) 0 in
  get_global_rank solo = 0
  /\ save_lr_scheduler solo ckpt w = (Ok tt, w1)
  /\ (load_lr_scheduler ckpt w2).1 = Ok tt
  /\ scheduler_state (w_lr_scheduler (load_lr_scheduler ckpt w2).2) = 3%nat.
Proof.
  intros w w1 w2.
  assert (save_lr_scheduler solo ckpt w = (Ok tt, w1)) as Hsave
    by (vm_compute; reflexivity).
  destruct (lr_scheduler_round_trip solo ckpt w w1 w2 eq_refl Hsave eq_refl)
    as (Hok & Hstate & _).
  split_and!; [reflexivity|exact Hsave|exact Hok|exact Hstate].
Defined.

Lemma sharded_writers_keep_their_shards_witness :
  let w1 := process ∅ (zero_adam 7) 0 in
  let w1' := (save_optimizer data_peer_0 ckpt w1).2 in
  let w2 := process (w_fs w1') (zero_adam 9) 0 in
  let w2' := (save_optimizer data_peer_1 ckpt w2).2 in
  let wl := process (w_fs w2') (zero_adam 0) 0 in
  (pp_rank data_peer_0, dp_rank data_peer_0, tp_rank data_peer_0)
  <> (pp_rank data_peer_1, dp_rank data_peer_1, tp_rank data_peer_1)
  /\ save_optimizer data_peer_0 ckpt w1 = (Ok tt, w1')
  /\ save_optimizer data_peer_1 ckpt w2 = (Ok tt, w2')
  /\ state_dict (w_optimizer (load_optimizer data_peer_0 ckpt None wl).2) = 7%nat
  /\ state_dict (w_optimizer (load_optimizer data_peer_1 ckpt None wl).2) = 9%nat.
Proof.
  intros w1 w1' w2 w2' wl.
  assert ((pp_rank data_peer_0, dp_rank data_peer_0, tp_rank data_peer_0)
          <> (pp_rank data_peer_1, dp_rank data_peer_1, tp_rank data_peer_1))
    as Hpos by (simpl; intros [= ?]).
  assert (save_optimizer data_peer_0 ckpt w1 = (Ok tt, w1')) as Hs1
    by (vm_compute; reflexivity).
  assert (save_optimizer data_peer_1 ckpt w2 = (Ok tt, w2')) as Hs2
    by (vm_compute; reflexivity).
  destruct (sharded_writers_keep_their_shards data_peer_0 data_peer_1 ckpt None
              w1 w1' w2 w2' wl wl eq_refl eq_refl Hpos Hs1 eq_refl Hs2
              eq_refl eq_refl eq_refl eq_refl) as ((_ & H7) & (_ & H9)).
  split_and!; [exact Hpos|exact Hs1|exact Hs2|exact H7|exact H9].
Defined.

Lemma checkpoint_round_trip_either_order_witness :
  let w := process ∅ (adam 7) 3 in
  let wa := (save_lr_scheduler solo ckpt w).2 in
  let wb := (save_optimizer solo ckpt wa).2 in
  let wl := process (w_fs wb) (adam 0) 0 in
  let after_opt := load_optimizer solo ckpt None wl in
  let after_both := load_lr_scheduler ckpt after_opt.2 in
  owns_write false solo = true
  /\ get_global_rank solo = 0
  /\ save_lr_scheduler solo ckpt w = (Ok tt, wa)
  /\ save_optimizer solo ckpt wa = (Ok tt, wb)
  /\ state_dict (w_optimizer after_both.2) = 7%nat
  /\ scheduler_state (w_lr_scheduler after_both.2) = 3%nat.
Proof.
  intros w wa wb wl after_opt after_both.
  assert (save_lr_scheduler solo ckpt w = (Ok tt, wa)) as Hs
    by (vm_compute; reflexivity).
  assert (save_optimizer solo ckpt wa = (Ok tt, wb)) as Ho
    by (vm_compute; reflexivity).
  destruct (checkpoint_round_trip_either_order solo ckpt None w wa wb wl
              eq_refl eq_refl (or_intror (conj Hs Ho)) eq_refl eq_refl)
    as (_ & _ & H7 & H3).
  split_and!; [reflexivity|reflexivity|exact Hs|exact Ho|exact H7|exact H3].
Defined.

Lemma replicated_replica_finds_no_shard_witness :
  let saved := (save_optimizer data_peer_0 ckpt (process ∅ (adam 7) 0)).2 in
  let w := process (w_fs saved) (adam 0) 0 in
  inherit_from (w_optimizer w) ZeroDistributedOptimizer = false
  /\ checkpoint_of_owners ckpt (w_fs w)
  /\ dp_rank data_peer_1 <> 0
  /\ (make_dirs [] (ckpt </> "optimizer") (w_fs w)).1 = Ok tt
  /\ (load_optimizer data_peer_1 ckpt None w).1 = Raise FileNotFoundError.
Proof.
  intros saved w.
  assert (checkpoint_of_owners ckpt (w_fs w)) as Hfs.
  { apply (replicated_replica_finds_no_shard data_peer_0 ckpt None
             (process ∅ (adam 7) 0) eq_refl).
    - intros name [n Hn]. unfold process in Hn. cbn [w_fs] in Hn.
      by rewrite lookup_empty in Hn.
    - simpl. lia. }
  assert (dp_rank data_peer_1 <> 0) as Hdp by (simpl; lia).
  assert ((make_dirs [] (ckpt </> "optimizer") (w_fs w)).1 = Ok tt) as Hdir
    by (vm_compute; reflexivity).
  split_and!; [reflexivity|exact Hfs|exact Hdp|exact Hdir|].
  by apply (replicated_replica_finds_no_shard data_peer_1 ckpt None w eq_refl Hfs).
Defined.

Lemma load_in_other_mode_not_found_witness :
  let saved := (save_optimizer solo ckpt (process ∅ (zero_adam 7) 0)).2 in
  let w := process (w_fs saved) (adam 0) 0 in
  (make_dirs [] (ckpt </> "optimizer") (w_fs w)).1 = Ok tt
  /\ checkpoint_of_run true 1 1 1 ckpt (w_fs w)
  /\ (load_optimizer solo ckpt None w).1 = Raise FileNotFoundError.
Proof.
  intros saved w.
  assert ((make_dirs [] (ckpt </> "optimizer") (w_fs w)).1 = Ok tt) as Hdir
    by (vm_compute; reflexivity).
  assert (checkpoint_of_run true 1 1 1 ckpt (w_fs w)) as Hrun.
  { apply (save_optimizer_keeps_checkpoint_of_run solo ckpt (process ∅ (zero_adam 7) 0)).
    intros name [n Hn]. unfold process in Hn. cbn [w_fs] in Hn.
    by rewrite lookup_empty in Hn. }
  split_and!; [exact Hdir|exact Hrun|].
  exact (load_in_other_mode_not_found solo ckpt None w 1 1 1 Hdir Hrun).
Defined.

Lemma save_optimizer_again_overwrites_witness :
  let w := process ∅ (adam 7) 0 in
  let w1 := (save_optimizer solo ckpt w).2 in
  let w2 := process (w_fs w1) (adam 9) 0 in
  let again := save_optimizer solo ckpt w2 in
  wf_context solo
  /\ save_optimizer solo ckpt w = (Ok tt, w1)
  /\ again.1 = Ok tt
  /\ w_fs again.2
     = <[ckpt </> "optimizer" </> "optimizer_pp-0-of-1_tp-0-of-1.pt" := PickleFile 9%nat]>
         (w_fs w1).
Proof.
  intros w w1 w2 again.
  assert (wf_context solo) as Hwf by apply wf_context_samples.
  assert (save_optimizer solo ckpt w = (Ok tt, w1)) as Hsave
    by (vm_compute; reflexivity).
  destruct (save_optimizer_again_overwrites solo ckpt w w1 w2 Hwf Hsave eq_refl eq_refl)
    as (Hok & Hfs).
  split_and!; [exact Hwf|exact Hsave|exact Hok|exact Hfs].
Defined.

Lemma count_batch_counts_each_index_once_witness :
  length [0; 0] = length [3%nat; 2%nat]
  /\ (forall idx, idx ∈ [0; 4; 1] -> 0 <= idx < py_sum (Z.of_nat <$> [3%nat; 2%nat]))
  /\ exists counted,
       count_batch [3%nat; 2%nat] 2 [0; 4; 1] [0; 0] = Some counted
       /\ py_sum counted = 3.
Proof.
  assert (forall idx, idx ∈ [0; 4; 1] -> 0 <= idx < py_sum (Z.of_nat <$> [3%nat; 2%nat]))
    as Hall.
  { intros idx Hin. change (py_sum (Z.of_nat <$> [3%nat; 2%nat])) with 5.
    rewrite !elem_of_cons, elem_of_nil in Hin. lia. }
  destruct (count_batch_counts_each_index_once [3%nat; 2%nat] [0; 4; 1] [0; 0] eq_refl)
    as (counted & Hrun & _ & _ & Hsum).
  split_and!; [reflexivity|exact Hall|].
  exists counted. split; [exact Hrun|]. exact (Hsum Hall).
Defined.

Lemma count_batch_index_error_witness :
  (length [3%nat] < 2)%nat
  /\ [0; 1] <> []
  /\ count_batch [3%nat] 2 [0; 1] [0; 0] = None
  /\ length [0; 0] = 2%nat
  /\ count_batch [3%nat] 2 [] [0; 0] = Some [0; 0].
Proof.
  assert (length [3%nat] < 2)%nat as Hlt by (simpl; lia).
  assert ([0; 1] <> @nil Z) as Hne by discriminate.
  destruct (count_batch_index_error [3%nat] 2 [0; 1] [0; 0] Hlt) as (Herr & Hempty).
  split_and!; [exact Hlt|exact Hne|exact (Herr Hne)|reflexivity|exact (Hempty eq_refl)].
Defined.

Lemma not_repeating_loop_passes_iff_no_index_again_witness :
  ForallOrdPairs no_index_again [[1; 2]; [3; 3]]
  /\ not_repeating_loop [[1; 2]; [3; 3]] 0 [] = Some (2, [1; 2; 3; 3])
  /\ ~ ForallOrdPairs no_index_again [[1; 2]; [2]]
  /\ not_repeating_loop [[1; 2]; [2]] 0 [] = None.
Proof.
  assert (ForallOrdPairs no_index_again [[1; 2]; [3; 3]]) as Hgood.
  { repeat constructor. intros idx Hin Hearlier.
    rewrite !elem_of_cons, elem_of_nil in Hin, Hearlier. lia. }
  assert (~ ForallOrdPairs no_index_again [[1; 2]; [2]]) as Hbad.
  { intros Hp. inversion Hp as [|? ? Hfirst _]; subst.
    inversion Hfirst as [|? ? H2 _]; subst.
    apply (H2 2); [left|right; left]. }
  split_and!; [exact Hgood| |exact Hbad|].
  - exact (proj1 (not_repeating_loop_passes_iff_no_index_again [[1; 2]; [3; 3]]) Hgood).
  - exact (proj2 (not_repeating_loop_passes_iff_no_index_again [[1; 2]; [2]]) Hbad).
Defined.

(** With a file where the optimizer folder should be, the load is answered
    [NotADirectoryError]; with the folder in place and the shard missing,
    [FileNotFoundError]. *)
Example load_optimizer_below_a_file :
  (load_optimizer solo ckpt None
     (process (<[ckpt </> "optimizer" := JsonFile []]> (<[ckpt := Directory]> ∅))
              (adam 0) 0)).1
  = Raise NotADirectoryError
  /\ (load_optimizer solo ckpt None (process fresh_optimizer_dirs (adam 0) 0)).1
     = Raise FileNotFoundError
  /\ (load_lr_scheduler ckpt (process (<[ckpt := JsonFile []]> ∅) (adam 0) 0)).1
     = Raise NotADirectoryError.
Proof. by vm_compute. Qed.
